(** * Webhook delivery and retry core of [backend/server.js]

    A shallow embedding of the webhook system of the invoice backend:
    [sendWebhook], the 60-second retry job and the approval route
    [POST /invoices/:id/:phone/approve], over an explicit model of the
    table [client_smd.backend], of the outcomes of the effects the code
    awaits (file reads, [axios.post], [pool.query]) and of the log. *)

From Stdlib Require Import List String Ascii ZArith Lia Bool Arith.
Import ListNotations.
Local Open Scope string_scope.

(** ** The table [client_smd.backend]

    Only the columns the webhook system reads or writes are kept.  The
    table is not created by the code, so column types are taken from the
    values the code stores: ids and phone numbers are text, the other
    columns are nullable, [webhook_attempts] is an integer column which
    the SQL reads through [COALESCE] and [IS NULL]. *)

Record Row : Type := mkRow {
  id : string;
  phonenumber : string;
  dealer : option string;
  total : option string;
  status : option string;
  pdf_url : option string;
  webhook_status : option string;
  webhook_attempts : option Z
}.

Definition Table : Type := list Row.

(** *** SQL conditions: three-valued logic

    A comparison with NULL is NULL ([None]); [WHERE] keeps the rows whose
    condition is TRUE. *)

Definition sql_eq (x : option string) (lit : string) : option bool :=
  match x with
  | Some v => Some (String.eqb v lit)
  | None => None
  end.

Definition sql_lt (x : option Z) (n : Z) : option bool :=
  match x with
  | Some v => Some (Z.ltb v n)
  | None => None
  end.

Definition sql_is_null {A : Type} (x : option A) : option bool :=
  match x with
  | Some _ => Some false
  | None => Some true
  end.

Definition sql_and (a b : option bool) : option bool :=
  match a, b with
  | Some false, _ => Some false
  | _, Some false => Some false
  | Some true, Some true => Some true
  | _, _ => None
  end.

Definition sql_or (a b : option bool) : option bool :=
  match a, b with
  | Some true, _ => Some true
  | _, Some true => Some true
  | Some false, Some false => Some false
  | _, _ => None
  end.

Definition where_true (c : option bool) : bool :=
  match c with
  | Some true => true
  | _ => false
  end.

Definition coalesce (x : option Z) (d : Z) : Z :=
  match x with
  | Some v => v
  | None => d
  end.

(** *** The four statements of the webhook system *)

(** [WHERE status = 'APPROVED'
     AND (webhook_status = 'FAILED' OR webhook_status = 'PENDING')
     AND (webhook_attempts IS NULL OR webhook_attempts < 10)] *)
Definition retry_condition (r : Row) : option bool :=
  sql_and
    (sql_and (sql_eq (status r) "APPROVED")
             (sql_or (sql_eq (webhook_status r) "FAILED")
                     (sql_eq (webhook_status r) "PENDING")))
    (sql_or (sql_is_null (webhook_attempts r))
            (sql_lt (webhook_attempts r) 10)).

Definition retry_eligible (r : Row) : bool := where_true (retry_condition r).

(** [SELECT * ... LIMIT 10].  The statement has no ORDER BY; the rows come
    in the scan order of the table, which is the order of the list. *)
Definition select_retry_candidates (t : Table) : list Row :=
  firstn 10 (filter retry_eligible t).

(** [SET webhook_status = 'SENT'] *)
Definition set_sent (r : Row) : Row :=
  mkRow (id r) (phonenumber r) (dealer r) (total r) (status r) (pdf_url r)
        (Some "SENT") (webhook_attempts r).

(** [SET webhook_status = 'FAILED',
        webhook_attempts = COALESCE(webhook_attempts, 0) + 1] *)
Definition set_failed (r : Row) : Row :=
  mkRow (id r) (phonenumber r) (dealer r) (total r) (status r) (pdf_url r)
        (Some "FAILED") (Some (coalesce (webhook_attempts r) 0 + 1)%Z).

(** [SET status = 'APPROVED', total = $1, pdf_url = $2,
        webhook_status = 'PENDING', webhook_attempts = 0] *)
Definition set_approved (new_total : option string) (pdfUrl : string) (r : Row) : Row :=
  mkRow (id r) (phonenumber r) (dealer r) new_total (Some "APPROVED") (Some pdfUrl)
        (Some "PENDING") (Some 0%Z).

(** [WHERE id = $1] *)
Definition has_id (i : string) (r : Row) : bool := String.eqb (id r) i.

(** [WHERE id = $3 AND phonenumber = $4] *)
Definition has_id_phone (i phone : string) (r : Row) : bool :=
  where_true (sql_and (sql_eq (Some (id r)) i) (sql_eq (Some (phonenumber r)) phone)).

Definition update_where (cond : Row -> bool) (f : Row -> Row) (t : Table) : Table :=
  map (fun r => if cond r then f r else r) t.

Definition mark_sent (i : string) : Table -> Table := update_where (has_id i) set_sent.

Definition mark_failed (i : string) : Table -> Table := update_where (has_id i) set_failed.

Definition approve_update (new_total : option string) (pdfUrl i phone : string)
  : Table -> Table :=
  update_where (has_id_phone i phone) (set_approved new_total pdfUrl).

Inductive Query : Type :=
| QMarkSent (i : string)
| QMarkFailed (i : string)
| QSelectRetry
| QApprove (new_total : option string) (pdfUrl i phone : string).

(** The new table and [result.rows] of a statement that completes. *)
Definition run_query (q : Query) (t : Table) : Table * list Row :=
  match q with
  | QMarkSent i => (mark_sent i t, [])
  | QMarkFailed i => (mark_failed i t, [])
  | QSelectRetry => (t, select_retry_candidates t)
  | QApprove new_total pdfUrl i phone =>
      (approve_update new_total pdfUrl i phone t,
       map (set_approved new_total pdfUrl) (filter (has_id_phone i phone) t))
  end.

(** ** Effects

    What the awaited calls answer is not decided by the program.  A
    [World] fixes those answers; the n-th call of each kind reads the n-th
    answer, the counters being part of the state. *)

Inductive FileState : Type :=
| Missing
| Readable (base64 : string)
| Unreadable (message : string).

Inductive HttpOutcome : Type :=
| Http2xx
| HttpRejected (message : string).

Record World : Type := mkWorld {
  (** state of [path.join(pdfDir, filename)] at the n-th file operation *)
  file_at : nat -> string -> FileState;
  (** [Some message] when the n-th file write throws *)
  write_error : nat -> option string;
  (** how the promise of the n-th [axios.post] settles; a rejection covers
      network failure, a response outside 2xx and a body that cannot be
      serialized *)
  post_outcome : nat -> HttpOutcome;
  (** [Some message] when the n-th [pool.query] rejects *)
  query_error : nat -> option string;
  (** [new Date().toISOString()] at the n-th post *)
  iso_now : nat -> string;
  (** [Date.now()] in decimal at the n-th file operation *)
  date_now : nat -> string
}.

Record Payload : Type := mkPayload {
  event : string;
  invoice_id : string;
  phone : string;
  payload_pdf_url : option string;
  pdf_base64 : option string;
  payload_total : option string;
  payload_dealer : option string;
  timestamp : string
}.

Inductive LogLine : Type :=
| WarnPdfUnreadable (i : string) (message : string)
| LogSending (i : string)
| LogSent (i : string)
| ErrWebhookFailed (i : string) (message : string)
| LogRetrying (n : nat)
| ErrRetryJob (message : string)
| ErrImmediateTrigger (message : string)
| LogNoWebhookUrl
| ErrApproval (message : string).

Inductive Event : Type :=
| EvExists (filename : string) (answer : bool)
| EvRead (filename : string)
| EvWrite (filename : string)
| EvPost (url : string) (body : Payload) (outcome : HttpOutcome)
| EvQuery (q : Query) (error : option string)
| EvLog (l : LogLine).

(** The state threaded through the code: the table, the calls made so far
    (most recent first) and how many answers of each kind were consumed. *)
Record Sys : Type := mkSys {
  db : Table;
  trace : list Event;
  files_used : nat;
  posts : nat;
  queries : nat
}.

Inductive Exn : Type :=
| TypeError (message : string)
| FileError (message : string)
| HttpError (message : string)
| DbError (message : string).

Definition message_of (e : Exn) : string :=
  match e with
  | TypeError m | FileError m | HttpError m | DbError m => m
  end.

Inductive Outcome (A : Type) : Type :=
| Returned (a : A)
| Thrown (e : Exn).
Arguments Returned {A} a.
Arguments Thrown {A} e.

(** State that survives exceptions: what was written before a throw stays
    written. *)
Definition M (A : Type) : Type := Sys -> Outcome A * Sys.

Definition ret {A : Type} (a : A) : M A := fun s => (Returned a, s).

Definition throw {A : Type} (e : Exn) : M A := fun s => (Thrown e, s).

Definition bind {A B : Type} (m : M A) (k : A -> M B) : M B :=
  fun s =>
    match m s with
    | (Returned a, s') => k a s'
    | (Thrown e, s') => (Thrown e, s')
    end.

Definition try_catch {A : Type} (m : M A) (handler : Exn -> M A) : M A :=
  fun s =>
    match m s with
    | (Returned a, s') => (Returned a, s')
    | (Thrown e, s') => handler e s'
    end.

Declare Scope js_scope.
Delimit Scope js_scope with js.
Notation "x <- m ;; k" := (bind m (fun x => k))
  (at level 61, m at next level, right associativity) : js_scope.
Notation "m ;; k" := (bind m (fun _ => k))
  (at level 61, right associativity) : js_scope.
Local Open Scope js_scope.

Fixpoint for_of {A : Type} (xs : list A) (body : A -> M unit) : M unit :=
  match xs with
  | [] => ret tt
  | x :: rest => body x ;; for_of rest body
  end.

Definition record (e : Event) (s : Sys) : Sys :=
  mkSys (db s) (e :: trace s) (files_used s) (posts s) (queries s).

Definition console (l : LogLine) : M unit :=
  fun s => (Returned tt, record (EvLog l) s).

(** ** JavaScript values *)

(** [!x] is false exactly for a non-empty string; [undefined], [null] and
    [""] are falsy. *)
Definition truthy (x : option string) : bool :=
  match x with
  | Some EmptyString => false
  | Some _ => true
  | None => false
  end.

(** [s.split(sep)] for a one-character separator: never empty. *)
Fixpoint split (sep : ascii) (s : string) : list string :=
  match s with
  | EmptyString => [EmptyString]
  | String c rest =>
      if Ascii.eqb c sep then EmptyString :: split sep rest
      else match split sep rest with
           | [] => [String c EmptyString]
           | seg :: segs => String c seg :: segs
           end
  end.

(** [arr.pop()] read as a value: the last element. *)
Definition pop (segs : list string) : string := last segs EmptyString.

(** [invoice.f]: a TypeError when [invoice] is [undefined], as it is when
    the approval route passes [result.rows[0]] of an update that matched
    no row. *)
Definition field {A : Type} (invoice : option Row) (f : Row -> A) : M A :=
  match invoice with
  | Some r => ret (f r)
  | None => throw (TypeError "Cannot read properties of undefined")
  end.

(** ** The webhook system *)

Section WebhookSystem.

Variable w : World.

(** [process.env.WEBHOOK_URL] and [process.env.VERCEL] *)
Variable WEBHOOK_URL : option string.
Variable VERCEL : option string.

Definition existsSync (filename : string) : M bool :=
  fun s =>
    let answer := match file_at w (files_used s) filename with
                  | Missing => false
                  | _ => true
                  end in
    (Returned answer,
     mkSys (db s) (EvExists filename answer :: trace s)
           (S (files_used s)) (posts s) (queries s)).

(** [fs.readFileSync(filePath, { encoding: 'base64' })] *)
Definition readFileSync (filename : string) : M string :=
  fun s =>
    let s' := mkSys (db s) (EvRead filename :: trace s)
                    (S (files_used s)) (posts s) (queries s) in
    match file_at w (files_used s) filename with
    | Readable content => (Returned content, s')
    | Unreadable m => (Thrown (FileError m), s')
    | Missing => (Thrown (FileError "ENOENT: no such file or directory"), s')
    end.

Definition writeFileSync (filename : string) : M unit :=
  fun s =>
    let s' := mkSys (db s) (EvWrite filename :: trace s)
                    (S (files_used s)) (posts s) (queries s) in
    match write_error w (files_used s) with
    | Some m => (Thrown (FileError m), s')
    | None => (Returned tt, s')
    end.

(** [await axios.post(url, body)] *)
Definition axios_post (url : string) (body : Payload) : M unit :=
  fun s =>
    let o := post_outcome w (posts s) in
    let s' := mkSys (db s) (EvPost url body o :: trace s)
                    (files_used s) (S (posts s)) (queries s) in
    match o with
    | Http2xx => (Returned tt, s')
    | HttpRejected m => (Thrown (HttpError m), s')
    end.

(** [await pool.query(q)]: a statement that rejects changes nothing. *)
Definition pool_query (q : Query) : M (list Row) :=
  fun s =>
    let err := query_error w (queries s) in
    match err with
    | Some m =>
        (Thrown (DbError m),
         mkSys (db s) (EvQuery q err :: trace s)
               (files_used s) (posts s) (S (queries s)))
    | None =>
        let (t', rows) := run_query q (db s) in
        (Returned rows,
         mkSys t' (EvQuery q err :: trace s)
               (files_used s) (posts s) (S (queries s)))
    end.

Definition iso_timestamp : M string :=
  fun s => (Returned (iso_now w (posts s)), s).

Definition Date_now : M string :=
  fun s => (Returned (date_now w (files_used s)), s).

(** The inner [try] of [sendWebhook]: the file named by the last segment
    of [pdf_url], in base64, or [null]. *)
Definition read_pdf (invoice : option Row) (url : option string) : M (option string) :=
  if truthy url then
    try_catch
      (let filename := pop (split "/" (match url with Some u => u | None => "" end)) in
       present <- existsSync filename ;;
       if present : bool then
         content <- readFileSync filename ;;
         ret (Some content)
       else ret None)
      (fun fileErr =>
         i <- field invoice id ;;
         console (WarnPdfUnreadable i (message_of fileErr)) ;;
         ret None)
  else ret None.

Definition sendWebhook (invoice : option Row) : M bool :=
  if negb (truthy WEBHOOK_URL) then ret false
  else
    try_catch
      (url <- field invoice pdf_url ;;
       pdfBase64 <- read_pdf invoice url ;;
       i <- field invoice id ;;
       console (LogSending i) ;;
       to <- field invoice phonenumber ;;
       amount <- field invoice total ;;
       from <- field invoice dealer ;;
       stamp <- iso_timestamp ;;
       axios_post (match WEBHOOK_URL with Some u => u | None => "" end)
         (mkPayload "invoice_approved" i to url pdfBase64 amount from stamp) ;;
       pool_query (QMarkSent i) ;;
       console (LogSent i) ;;
       ret true)
      (fun err =>
         i <- field invoice id ;;
         console (ErrWebhookFailed i (message_of err)) ;;
         pool_query (QMarkFailed i) ;;
         ret false).

(** The body of the [setInterval] callback: one tick of the retry job. *)
Definition retryJob : M unit :=
  try_catch
    (if negb (truthy WEBHOOK_URL) then ret tt
     else
       rows <- pool_query QSelectRetry ;;
       if (0 <? List.length rows)%nat then
         console (LogRetrying (List.length rows)) ;;
         for_of rows (fun invoice => sendWebhook (Some invoice) ;; ret tt)
       else ret tt)
    (fun e => console (ErrRetryJob (message_of e))).

(** *** The approval route *)

Record ApproveRequest : Type := mkApproveRequest {
  param_id : string;
  param_phone : string;
  body_pdfBase64 : option string;
  body_total : option string;
  req_protocol : string;
  req_host : string
}.

Inductive Response : Type :=
| Json (code : nat) (invoice : Row)
| JsonError (code : nat) (error : string).

(** From the file name to [const row = result.rows[0]]: writes the PDF
    unless on Vercel, then commits the approval. *)
Definition approve_commit (req : ApproveRequest) : M (option Row) :=
  ms <- Date_now ;;
  let filename :=
    "invoice_" ++ param_phone req ++ "_" ++ param_id req ++ "_" ++ ms ++ ".pdf" in
  pdfUrl <- (if truthy VERCEL then
               ret ("https://placeholder-storage.com/" ++ filename)
             else
               writeFileSync filename ;;
               ret (req_protocol req ++ "://" ++ req_host req
                    ++ "/invoices/files/" ++ filename)) ;;
  rows <- pool_query (QApprove (body_total req) pdfUrl (param_id req) (param_phone req)) ;;
  ret (hd_error rows).

(** [sendWebhook(row).catch(...)], or a log line when no URL is set.  The
    promise is not awaited by the route; the model runs it to completion
    before the response is built, which is the interleaving in which
    nothing else touches the table meanwhile. *)
Definition triggerHook (row : option Row) : M unit :=
  if truthy WEBHOOK_URL then
    try_catch
      (sendWebhook row ;; ret tt)
      (fun e => console (ErrImmediateTrigger (message_of e)))
  else console LogNoWebhookUrl.

Definition approve (req : ApproveRequest) : M Response :=
  if negb (truthy (body_pdfBase64 req)) then ret (JsonError 400 "Missing PDF data")
  else
    try_catch
      (row <- approve_commit req ;;
       triggerHook row ;;
       r <- field row (fun r => r) ;;
       ret (Json 200 r))
      (fun err =>
         console (ErrApproval (message_of err)) ;;
         ret (JsonError 500 "Approval failed")).

End WebhookSystem.


(** ** Vocabulary of the statements *)

Definition retry_eligible_spec (r : Row) : Prop :=
  status r = Some "APPROVED" /\
  (webhook_status r = Some "FAILED" \/ webhook_status r = Some "PENDING") /\
  (webhook_attempts r = None \/
   exists n, webhook_attempts r = Some n /\ (n < 10)%Z).

Definition is_2xx (o : HttpOutcome) : bool :=
  match o with
  | Http2xx => true
  | HttpRejected _ => false
  end.

Definition body_of (w : World) (inv : Row) (content : option string) (s : Sys) : Payload :=
  mkPayload "invoice_approved" (id inv) (phonenumber inv) (pdf_url inv) content
            (total inv) (dealer inv) (iso_now w (posts s)).

(** What a run does, by the answers it gets: the post, the update to SENT
    and, when either fails, the update to FAILED. *)
Definition sendWebhook_run (w : World) (u : string) (inv : Row) (s s1 : Sys)
           (content : option string) (res : Outcome bool * Sys) : Prop :=
  let i := id inv in
  let sending := EvLog (LogSending i) :: trace s1 in
  let posted o := EvPost u (body_of w inv content s) o :: sending in
  posts (snd res) = S (posts s) /\
  match post_outcome w (posts s) with
  | Http2xx =>
      match query_error w (queries s) with
      | None =>
          fst res = Returned true /\
          db (snd res) = mark_sent i (db s) /\
          queries (snd res) = S (queries s) /\
          trace (snd res) =
            EvLog (LogSent i) :: EvQuery (QMarkSent i) None :: posted Http2xx
      | Some e =>
          let failed := EvLog (ErrWebhookFailed i e)
                        :: EvQuery (QMarkSent i) (Some e) :: posted Http2xx in
          queries (snd res) = S (S (queries s)) /\
          match query_error w (S (queries s)) with
          | None =>
              fst res = Returned false /\
              db (snd res) = mark_failed i (db s) /\
              trace (snd res) = EvQuery (QMarkFailed i) None :: failed
          | Some e' =>
              fst res = Thrown (DbError e') /\
              db (snd res) = db s /\
              trace (snd res) = EvQuery (QMarkFailed i) (Some e') :: failed
          end
      end
  | HttpRejected m =>
      let failed := EvLog (ErrWebhookFailed i m) :: posted (HttpRejected m) in
      queries (snd res) = S (queries s) /\
      match query_error w (queries s) with
      | None =>
          fst res = Returned false /\
          db (snd res) = mark_failed i (db s) /\
          trace (snd res) = EvQuery (QMarkFailed i) None :: failed
      | Some e' =>
          fst res = Thrown (DbError e') /\
          db (snd res) = db s /\
          trace (snd res) = EvQuery (QMarkFailed i) (Some e') :: failed
      end
  end.

(** How the row of an invoice stands after the outcome of a delivery was
    written: [delivered] is what [sendWebhook] returned. *)
Definition recorded (i : string) (delivered : bool) (r r' : Row) : Prop :=
  if has_id i r then
    webhook_status r' = Some (if delivered then "SENT" else "FAILED") /\
    webhook_attempts r' =
      (if delivered then webhook_attempts r
       else match webhook_attempts r with
            | None => Some 1%Z
            | Some n => Some (n + 1)%Z
            end)
  else r' = r.

(** The columns the webhook system does not own. *)
Definition same_invoice_data (r r' : Row) : Prop :=
  id r' = id r /\ phonenumber r' = phonenumber r /\ dealer r' = dealer r /\
  total r' = total r /\ status r' = status r /\ pdf_url r' = pdf_url r.

(** Only rows with id [i] differ, and only in the two delivery columns. *)
Definition delivery_frame (i : string) (r r' : Row) : Prop :=
  same_invoice_data r r' /\ (id r <> i -> r' = r).

Definition approval_reset (i phone : string) (r r' : Row) : Prop :=
  (id r = i /\ phonenumber r = phone ->
   status r' = Some "APPROVED" /\ webhook_status r' = Some "PENDING" /\
   webhook_attempts r' = Some 0%Z) /\
  (~ (id r = i /\ phonenumber r = phone) -> r' = r).

(** The artifact named by [filename] cannot be turned into content by a
    read that starts in state [s]: it is not there, or reading it throws. *)
Definition pdf_unresolved (w : World) (s : Sys) (filename : string) : Prop :=
  match file_at w (files_used s) filename with
  | Missing => True
  | _ => forall c, file_at w (S (files_used s)) filename <> Readable c
  end.

(** ** Sample inputs *)

Definition hook : option string := Some "https://n8n.example/webhook/invoice".

(** Everything answers; no PDF on disk. *)
Definition w_up : World :=
  mkWorld (fun _ _ => Missing) (fun _ => None) (fun _ => Http2xx) (fun _ => None)
          (fun _ => "2024-05-01T10:00:00.000Z") (fun _ => "1714557600000").

(** The destination refuses connections and the PDF path is a directory. *)
Definition w_net_down : World :=
  mkWorld (fun _ _ => Unreadable "EISDIR: illegal operation on a directory")
          (fun _ => None) (fun _ => HttpRejected "connect ECONNREFUSED")
          (fun _ => None)
          (fun _ => "2024-05-01T10:00:00.000Z") (fun _ => "1714557600000").

(** Neither the destination nor the database answers. *)
Definition w_all_down : World :=
  mkWorld (fun _ _ => Missing) (fun _ => None)
          (fun _ => HttpRejected "connect ECONNREFUSED")
          (fun _ => Some "Connection terminated unexpectedly")
          (fun _ => "2024-05-01T10:00:00.000Z") (fun _ => "1714557600000").

(** The destination answers 200, the next statement fails, later ones
    succeed. *)
Definition w_db_blip : World :=
  mkWorld (fun _ _ => Missing) (fun _ => None) (fun _ => Http2xx)
          (fun n => match n with
                    | O => Some "Connection terminated unexpectedly"
                    | S _ => None
                    end)
          (fun _ => "2024-05-01T10:00:00.000Z") (fun _ => "1714557600000").

Definition invoice_A : Row :=
  mkRow "inv-A" "919900000001" (Some "Acme Traders") (Some "1180.00")
        (Some "APPROVED")
        (Some "http://localhost:5000/invoices/files/invoice_919900000001_inv-A_1.pdf")
        (Some "PENDING") (Some 0%Z).

(** An approved invoice whose counter is NULL and which has no PDF. *)
Definition invoice_B : Row :=
  mkRow "inv-B" "919900000002" (Some "Bolt Supplies") (Some "75.50")
        (Some "APPROVED") None (Some "PENDING") None.

Definition invoice_draft : Row :=
  mkRow "inv-C" "919900000003" None None (Some "created") None None None.

Definition start (t : Table) : Sys := mkSys t [] 0 0 0.

Definition approve_A : ApproveRequest :=
  mkApproveRequest "inv-A" "919900000001" (Some "JVBERi0xLjMK") (Some "1180.00")
                   "http" "localhost:5000".

(** Fifteen approved invoices waiting for delivery, and one draft. *)
Definition waiting (i : string) : Row :=
  mkRow i "919900000009" (Some "Acme Traders") (Some "10.00") (Some "APPROVED")
        None (Some "PENDING") (Some 0%Z).

Definition batch_ids : list string :=
  ["inv-01"; "inv-02"; "inv-03"; "inv-04"; "inv-05";
   "inv-06"; "inv-07"; "inv-08"; "inv-09"; "inv-10";
   "inv-11"; "inv-12"; "inv-13"; "inv-14"; "inv-15"].

Definition batch : Table := invoice_draft :: map waiting batch_ids.

(** *** The loop of a tick *)

(** The state in which the loop of a tick starts. *)
Definition after_select (s : Sys) : Sys :=
  record (EvLog (LogRetrying (List.length (select_retry_candidates (db s)))))
         (mkSys (db s) (EvQuery QSelectRetry None :: trace s)
                (files_used s) (posts s) (S (queries s))).

Definition retry_each (w : World) (url : option string) (rows : list Row) : M unit :=
  for_of rows (fun invoice => sendWebhook w url (Some invoice) ;; ret tt).

Definition log_retry_error (e : Exn) : M unit := console (ErrRetryJob (message_of e)).

(** The transitions of [webhook_status] the specification lists. *)
Definition listed_transition (old new : option string) : Prop :=
  (old = Some "PENDING" \/ old = Some "FAILED") /\
  (new = Some "SENT" \/ new = Some "FAILED").

(** What recording an outcome can do to a [webhook_status], whatever it
    was: nothing, or overwrite it with SENT or FAILED. *)
Definition delivery_write (old new : option string) : Prop :=
  new = old \/ new = Some "SENT" \/ new = Some "FAILED".

(** A row keeps its id and its [webhook_status] stays or makes a listed
    transition. *)
Definition status_step (r r' : Row) : Prop :=
  id r' = id r /\
  (webhook_status r' = webhook_status r \/
   listed_transition (webhook_status r) (webhook_status r')).

(** Invariant of the loop of a tick, between the table at the query and
    the table now: rows of invoices still to be processed are as they
    were, PENDING or FAILED. *)
Definition tick_invariant (remaining : list Row) (r r' : Row) : Prop :=
  status_step r r' /\
  (In (id r) (map id remaining) ->
   r' = r /\
   (webhook_status r = Some "PENDING" \/ webhook_status r = Some "FAILED")).

(** The destination answers the first post and refuses the second. *)
Definition w_second_post_refused : World :=
  mkWorld (fun _ _ => Missing) (fun _ => None)
          (fun n => match n with
                    | O => Http2xx
                    | S _ => HttpRejected "Request failed with status code 502"
                    end)
          (fun _ => None)
          (fun _ => "2024-05-01T10:00:00.000Z") (fun _ => "1714557600000").

(** The same row delivered twice: once by the trigger of the approval
    and once by the scheduler, which selected the row while the first
    delivery was in flight. *)
Definition delivered_twice (w : World) (url : option string) (snapshot : Row)
  : M bool :=
  sendWebhook w url (Some snapshot) ;; sendWebhook w url (Some snapshot).

(** ** The other helpers and statements of [server.js] *)

(** *** Strings *)

(** [items.join(sep)] on strings. *)
Definition join (items : list string) (sep : string) : string :=
  String.concat sep items.

Fixpoint has_char (c : ascii) (s : string) : bool :=
  match s with
  | EmptyString => false
  | String d rest => Ascii.eqb d c || has_char c rest
  end.

Fixpoint skip_chars (n : nat) (s : string) : string :=
  match n, s with
  | O, _ => s
  | S _, EmptyString => EmptyString
  | S m, String _ rest => skip_chars m rest
  end.

(** [s.startsWith(p)] *)
Definition startsWith (s p : string) : bool := String.prefix p s.

(** [s.replace(pattern, replacement)] with a string pattern: the first
    occurrence only.  The replacements of the code hold no [$]. *)
Fixpoint replace (s pattern replacement : string) : string :=
  if String.prefix pattern s then
    replacement ++ skip_chars (String.length pattern) s
  else
    match s with
    | EmptyString => EmptyString
    | String c rest => String c (replace rest pattern replacement)
    end.

(** The middleware that strips the [/api] prefix: the new [req.url]. *)
Definition strip_api_prefix (url : string) : string :=
  if startsWith url "/api" then
    match replace url "/api" "" with
    | EmptyString => "/"
    | stripped => stripped
    end
  else url.

(** *** Values of a request body *)

(** A value as the helpers below see it.  A number, boolean or object is
    kept as its truthiness and the text [String()] makes of it. *)
#[warnings="-register-all"]
Inductive JsValue : Type :=
| JsUndefined
| JsNull
| JsString (s : string)
| JsArray (items : list JsValue)
| JsOther (is_truthy : bool) (text : string).

Definition js_truthy (v : JsValue) : bool :=
  match v with
  | JsUndefined | JsNull => false
  | JsString s => truthy (Some s)
  | JsArray _ => true
  | JsOther b _ => b
  end.

(** [String(v)]; inside an array, [undefined] and [null] give the empty
    string. *)
Fixpoint js_String (v : JsValue) : string :=
  match v with
  | JsUndefined => "undefined"
  | JsNull => "null"
  | JsString s => s
  | JsArray items =>
      join (map (fun item => match item with
                             | JsUndefined | JsNull => EmptyString
                             | _ => js_String item
                             end) items) ","
  | JsOther _ text => text
  end.

(** [arr.join(',')] *)
Definition Array_join (items : list JsValue) : string :=
  js_String (JsArray items).

(** [csvToArray]: a column of the table, NULL or text, as an array. *)
Definition csvToArray (str : option string) : list string :=
  if negb (truthy str) then []
  else split "," (match str with Some s => s | None => "" end).

Section ArrayToCsv.

(** [JSON.parse] is the language's; [None] stands for a SyntaxError. *)
Variable JSON_parse : string -> option JsValue.

Definition arrayToCsv (val : JsValue) : string :=
  match val with
  | JsArray items => Array_join items
  | _ =>
      if negb (js_truthy val) then ""
      else
        match JSON_parse (js_String val) with
        | Some (JsArray parsed) => Array_join parsed
        | _ => js_String val
        end
  end.

End ArrayToCsv.

(** *** The listing of pending invoices and the update of an invoice *)

Definition sql_ne (x : option string) (lit : string) : option bool :=
  match x with
  | Some v => Some (negb (String.eqb v lit))
  | None => None
  end.

(** [WHERE (status != 'APPROVED' OR status IS NULL) AND phonenumber = $1] *)
Definition pending_condition (phone_arg : string) (r : Row) : option bool :=
  sql_and (sql_or (sql_ne (status r) "APPROVED") (sql_is_null (status r)))
          (sql_eq (Some (phonenumber r)) phone_arg).

(** Whether [GET /invoices/pending?phone=...] lists the row: nothing is
    listed without a phone.  The order of the listing, by [created_at], is
    outside the columns kept here. *)
Definition listed_pending (phone_arg : option string) (r : Row) : bool :=
  match phone_arg with
  | Some p => truthy phone_arg && where_true (pending_condition p r)
  | None => false
  end.

(** The body of [PUT /invoices/:id/:phone], for the columns kept here. *)
Record UpdateBody : Type := mkUpdateBody {
  data_Dealer : option string;
  data_dealer : option string;
  data_total : option string;
  data_status : option string;
  data_phonenumber : option string
}.

(** [a || b] *)
Definition js_or (a b : option string) : option string :=
  if truthy a then a else b.

(** [UPDATE ... SET dealer = $2, total = $10, status = $11,
     phonenumber = $15 WHERE id = $13 AND phonenumber = $14], with
    [$2 = data.Dealer || data.dealer], [$10 = data.total],
    [$11 = data.status] and [$15 = data.phonenumber || phone]; the other
    columns it sets are not among those kept here, and it names neither
    [pdf_url] nor the two webhook columns. *)
Definition set_updated (data : UpdateBody) (phone_arg : string) (r : Row) : Row :=
  mkRow (id r)
        (match js_or (data_phonenumber data) (Some phone_arg) with
         | Some p => p
         | None => phone_arg
         end)
        (js_or (data_Dealer data) (data_dealer data))
        (data_total data) (data_status data)
        (pdf_url r) (webhook_status r) (webhook_attempts r).

Definition put_update (data : UpdateBody) (i phone_arg : string) : Table -> Table :=
  update_where (has_id_phone i phone_arg) (set_updated data phone_arg).

(** *** Vocabulary of the further statements *)

Definition attempts_of (r : Row) : Z := coalesce (webhook_attempts r) 0.

(** The payloads posted by the calls of a trace. *)
Definition posted (tr : list Event) : list Payload :=
  flat_map (fun e => match e with
                     | EvPost _ body _ => [body]
                     | _ => []
                     end) tr.

(** The payload carries the fields of the row. *)
Definition payload_of_row (r : Row) (body : Payload) : Prop :=
  event body = "invoice_approved" /\
  invoice_id body = id r /\ phone body = phonenumber r /\
  payload_pdf_url body = pdf_url r /\ payload_total body = total r /\
  payload_dealer body = dealer r.

(** Invariant of the loop of a tick for a property [P] of the rows written
    so far and a property [Q] of the rows still to be processed. *)
Definition loop_invariant (P : Row -> Row -> Prop) (Q : Row -> Prop)
           (remaining : list Row) (r r' : Row) : Prop :=
  P r r' /\ (In (id r) (map id remaining) -> r' = r /\ Q r).

(** *** Further sample inputs *)

(** The PDF is on disk. *)
Definition w_pdf_on_disk : World :=
  mkWorld (fun _ _ => Readable "JVBERi0xLjMK") (fun _ => None) (fun _ => Http2xx)
          (fun _ => None)
          (fun _ => "2024-05-01T10:00:00.000Z") (fun _ => "1714557600000").

Definition invoice_exhausted : Row :=
  mkRow "inv-D" "919900000004" (Some "Delta Works") (Some "12.00")
        (Some "APPROVED") None (Some "FAILED") (Some 10%Z).

Definition save_as_draft : UpdateBody :=
  mkUpdateBody (Some "Acme Traders") None (Some "1180") (Some "DRAFT")
               (Some "919900000001").

Definition approve_unknown : ApproveRequest :=
  mkApproveRequest "inv-Z" "919900000001" (Some "JVBERi0xLjMK") (Some "5.00")
                   "http" "localhost:5000".

(** The query of the tick is answered, every later statement is rejected,
    and the destination refuses connections. *)
Definition w_recording_down : World :=
  mkWorld (fun _ _ => Missing) (fun _ => None)
          (fun _ => HttpRejected "connect ECONNREFUSED")
          (fun n => match n with
                    | O => None
                    | S _ => Some "Connection terminated unexpectedly"
                    end)
          (fun _ => "2024-05-01T10:00:00.000Z") (fun _ => "1714557600000").

(** * Properties *)

(** ** The statements *)

Lemma where_true_and (a b : option bool) :
  where_true (sql_and a b) = true <-> where_true a = true /\ where_true b = true.
Proof.
  destruct a as [[|]|], b as [[|]|]; simpl; intuition discriminate.
Qed.

Lemma where_true_or (a b : option bool) :
  where_true (sql_or a b) = true <-> where_true a = true \/ where_true b = true.
Proof.
  destruct a as [[|]|], b as [[|]|]; simpl; intuition discriminate.
Qed.

Lemma where_true_eq (x : option string) (lit : string) :
  where_true (sql_eq x lit) = true <-> x = Some lit.
Proof.
  destruct x as [v|]; simpl.
  - destruct (String.eqb_spec v lit) as [->|Hne]; split; intros H;
      try reflexivity; try discriminate.
    inversion H; contradiction.
  - split; discriminate.
Qed.

Lemma retry_eligible_iff (r : Row) :
  retry_eligible r = true <-> retry_eligible_spec r.
Proof.
  unfold retry_eligible, retry_condition, retry_eligible_spec.
  rewrite !where_true_and, !where_true_or, !where_true_eq.
  assert (Hn : where_true (sql_is_null (webhook_attempts r)) = true
               <-> webhook_attempts r = None)
    by (destruct (webhook_attempts r); simpl; split; congruence).
  assert (Hl : where_true (sql_lt (webhook_attempts r) 10) = true
               <-> exists n, webhook_attempts r = Some n /\ (n < 10)%Z).
  { destruct (webhook_attempts r) as [n|]; simpl.
    - destruct (Z.ltb_spec n 10); split; intros H'.
      + exists n; auto.
      + reflexivity.
      + discriminate.
      + destruct H' as (m & Hm & Hlt). inversion Hm; subst; lia.
    - split; [discriminate | intros (m & Hm & _); discriminate]. }
  rewrite Hn, Hl. tauto.
Qed.

Lemma In_firstn {A : Type} (n : nat) (l : list A) (x : A) :
  In x (firstn n l) -> In x l.
Proof.
  intros H. rewrite <- (firstn_skipn n l). apply in_or_app; left; exact H.
Qed.

Lemma In_skipn {A : Type} (n : nat) (l : list A) (x : A) :
  In x (skipn n l) -> In x l.
Proof.
  intros H. rewrite <- (firstn_skipn n l). apply in_or_app; right; exact H.
Qed.

Lemma selected_in_table (t : Table) (r : Row) :
  In r (select_retry_candidates t) -> In r t /\ retry_eligible r = true.
Proof.
  unfold select_retry_candidates. intros H.
  apply In_firstn in H. apply filter_In in H. exact H.
Qed.

Lemma select_at_most_10 (t : Table) :
  (List.length (select_retry_candidates t) <= 10)%nat.
Proof.
  unfold select_retry_candidates. rewrite length_firstn. lia.
Qed.

(** Rows that an update by id does not name are left as they are. *)
Lemma update_where_other (cond : Row -> bool) (f : Row -> Row) (t : Table) (r : Row) :
  In r t -> cond r = false -> In r (update_where cond f t).
Proof.
  intros Hin Hc. unfold update_where. apply in_map_iff.
  exists r. rewrite Hc. auto.
Qed.

Lemma Forall2_update_where (R : Row -> Row -> Prop) (cond : Row -> bool)
      (f : Row -> Row) (t : Table) :
  (forall r, In r t -> R r (if cond r then f r else r)) ->
  Forall2 R t (update_where cond f t).
Proof.
  unfold update_where. induction t as [|r t IH]; intros H; simpl.
  - constructor.
  - constructor.
    + apply H; left; reflexivity.
    + apply IH. intros r' Hr'. apply H; right; exact Hr'.
Qed.

Lemma Forall2_refl_on {A : Type} (R : A -> A -> Prop) (l : list A) :
  (forall x, In x l -> R x x) -> Forall2 R l l.
Proof.
  induction l as [|x l IH]; intros H; constructor.
  - apply H; left; reflexivity.
  - apply IH; intros y Hy; apply H; right; exact Hy.
Qed.

(** ** One run of [sendWebhook] *)

Lemma read_pdf_returns (w : World) (inv : Row) (u : option string) (s : Sys) :
  exists content s1,
    read_pdf w (Some inv) u s = (Returned content, s1) /\
    db s1 = db s /\ posts s1 = posts s /\ queries s1 = queries s /\
    (forall c, content = Some c ->
       let filename := pop (split "/" (match u with Some v => v | None => "" end)) in
       file_at w (files_used s) filename <> Missing /\
       file_at w (S (files_used s)) filename = Readable c).
Proof.
  unfold read_pdf. destruct (truthy u).
  - unfold try_catch, bind, existsSync, readFileSync, field, console, ret, record.
    simpl.
    destruct (file_at w (files_used s) _) eqn:E0; simpl.
    + eexists _, _; repeat split; try reflexivity; discriminate.
    + destruct (file_at w (S (files_used s)) _) eqn:E1; simpl;
        eexists _, _; repeat split; try reflexivity; try discriminate;
        congruence.
    + destruct (file_at w (S (files_used s)) _) eqn:E1; simpl;
        eexists _, _; repeat split; try reflexivity; try discriminate;
        congruence.
  - eexists _, _; repeat split; try reflexivity; discriminate.
Qed.

Lemma sendWebhook_runs (w : World) (u : string) (inv : Row) (s : Sys) :
  truthy (Some u) = true ->
  exists content s1,
    read_pdf w (Some inv) (pdf_url inv) s = (Returned content, s1) /\
    sendWebhook_run w u inv s s1 content (sendWebhook w (Some u) (Some inv) s).
Proof.
  intros Hu.
  destruct (read_pdf_returns w inv (pdf_url inv) s)
    as (content & s1 & Hread & Hdb & Hposts & Hq & _).
  exists content, s1. split; [exact Hread|].
  unfold sendWebhook_run, sendWebhook. rewrite Hu.
  unfold try_catch, bind, field, ret, console, iso_timestamp, axios_post,
    pool_query, record.
  cbn [negb]. cbv beta iota.
  rewrite Hread. simpl. rewrite Hposts, Hq, Hdb.
  destruct (post_outcome w (posts s)) as [|m]; simpl.
  - destruct (query_error w (queries s)) as [e|]; simpl.
    + destruct (query_error w (S (queries s))) as [e'|]; simpl;
        repeat split; reflexivity.
    + repeat split; reflexivity.
  - destruct (query_error w (queries s)) as [e|]; simpl;
      repeat split; reflexivity.
Qed.

Lemma truthy_Some (x : option string) :
  truthy x = true -> exists u, x = Some u.
Proof.
  destruct x as [u|]; [eauto | discriminate].
Qed.

Lemma has_id_true (i : string) (r : Row) : has_id i r = true <-> id r = i.
Proof. unfold has_id. apply String.eqb_eq. Qed.

Lemma has_id_false (i : string) (r : Row) : has_id i r = false <-> id r <> i.
Proof. unfold has_id. apply String.eqb_neq. Qed.

Lemma has_id_phone_true (i phone : string) (r : Row) :
  has_id_phone i phone r = true <-> id r = i /\ phonenumber r = phone.
Proof.
  unfold has_id_phone. rewrite where_true_and, !where_true_eq.
  split; intros [H1 H2]; split; congruence.
Qed.

Lemma mark_sent_recorded (i : string) (t : Table) :
  Forall2 (recorded i true) t (mark_sent i t).
Proof.
  apply Forall2_update_where. intros r _. unfold recorded.
  destruct (has_id i r); simpl; auto.
Qed.

Lemma mark_failed_recorded (i : string) (t : Table) :
  Forall2 (recorded i false) t (mark_failed i t).
Proof.
  apply Forall2_update_where. intros r _. unfold recorded.
  destruct (has_id i r); simpl; auto.
  split; [reflexivity|]. destruct (webhook_attempts r); reflexivity.
Qed.

Lemma same_invoice_data_refl (r : Row) : same_invoice_data r r.
Proof. unfold same_invoice_data; auto 10. Qed.

Lemma mark_sent_frame (i : string) (t : Table) :
  Forall2 (delivery_frame i) t (mark_sent i t).
Proof.
  apply Forall2_update_where. intros r _. unfold delivery_frame.
  destruct (has_id i r) eqn:E.
  - split; [unfold same_invoice_data; simpl; auto 10|].
    apply has_id_true in E. intros Hne; contradiction.
  - split; [apply same_invoice_data_refl | reflexivity].
Qed.

Lemma mark_failed_frame (i : string) (t : Table) :
  Forall2 (delivery_frame i) t (mark_failed i t).
Proof.
  apply Forall2_update_where. intros r _. unfold delivery_frame.
  destruct (has_id i r) eqn:E.
  - split; [unfold same_invoice_data; simpl; auto 10|].
    apply has_id_true in E. intros Hne; contradiction.
  - split; [apply same_invoice_data_refl | reflexivity].
Qed.

Lemma unchanged_frame (i : string) (t : Table) : Forall2 (delivery_frame i) t t.
Proof.
  apply Forall2_refl_on. intros r _. split;
    [apply same_invoice_data_refl | reflexivity].
Qed.

(** The table after a run is the table before it, or one of the two
    updates applied to it. *)
Lemma sendWebhook_db (w : World) (u : string) (inv : Row) (s : Sys) :
  truthy (Some u) = true ->
  let res := sendWebhook w (Some u) (Some inv) s in
  (fst res = Returned true /\ db (snd res) = mark_sent (id inv) (db s)) \/
  (fst res = Returned false /\ db (snd res) = mark_failed (id inv) (db s)) \/
  ((exists m, fst res = Thrown (DbError m)) /\ db (snd res) = db s).
Proof.
  intros Hu res.
  destruct (sendWebhook_runs w u inv s Hu) as (content & s1 & _ & Hrun).
  fold res in Hrun. unfold sendWebhook_run in Hrun.
  destruct Hrun as [_ Hrun].
  destruct (post_outcome w (posts s)) as [|m].
  - destruct (query_error w (queries s)) as [e|].
    + destruct Hrun as [_ Hrun].
      destruct (query_error w (S (queries s))) as [e'|];
        destruct Hrun as (Hr & Hdb & _); eauto 6.
    + destruct Hrun as (Hr & Hdb & _); eauto.
  - destruct Hrun as [_ Hrun].
    destruct (query_error w (queries s)) as [e|];
      destruct Hrun as (Hr & Hdb & _); eauto 6.
Qed.

Lemma sendWebhook_unconfigured (w : World) (url : option string)
      (invoice : option Row) (s : Sys) :
  truthy url = false -> sendWebhook w url invoice s = (Returned false, s).
Proof.
  intros Hu. unfold sendWebhook. rewrite Hu. reflexivity.
Qed.

Lemma sendWebhook_undefined (w : World) (url : option string) (s : Sys) :
  db (snd (sendWebhook w url None s)) = db s.
Proof.
  unfold sendWebhook. destruct (truthy url); reflexivity.
Qed.

(** With a destination configured, an [undefined] invoice makes both the
    [try] block and the [catch] block throw. *)
Lemma sendWebhook_undefined_throws (w : World) (url : option string) (s : Sys) :
  truthy url = true ->
  sendWebhook w url None s
  = (Thrown (TypeError "Cannot read properties of undefined"), s).
Proof.
  intros Hu. unfold sendWebhook. rewrite Hu. reflexivity.
Qed.

Lemma sendWebhook_posts_le (w : World) (url : option string)
      (invoice : option Row) (s : Sys) :
  (posts (snd (sendWebhook w url invoice s)) <= S (posts s))%nat.
Proof.
  destruct (truthy url) eqn:Hu.
  - destruct (truthy_Some url Hu) as [u ->].
    destruct invoice as [inv|].
    + destruct (sendWebhook_runs w u inv s Hu) as (c & s1 & _ & Hp & _).
      rewrite Hp. apply Nat.le_refl.
    + unfold sendWebhook. rewrite Hu. simpl. apply Nat.le_succ_diag_r.
  - rewrite (sendWebhook_unconfigured w url invoice s Hu). simpl.
    apply Nat.le_succ_diag_r.
Qed.

Lemma sendWebhook_delivery_frame (w : World) (url : option string)
      (inv : Row) (s : Sys) :
  Forall2 (delivery_frame (id inv)) (db s)
          (db (snd (sendWebhook w url (Some inv) s))).
Proof.
  destruct (truthy url) eqn:Hu.
  - destruct (truthy_Some url Hu) as [u ->].
    pose proof (sendWebhook_db w u inv s Hu) as Hdb; simpl in Hdb.
    destruct Hdb as [[_ ->] | [[_ ->] | [_ ->]]].
    + apply mark_sent_frame.
    + apply mark_failed_frame.
    + apply unchanged_frame.
  - rewrite (sendWebhook_unconfigured w url (Some inv) s Hu).
    apply unchanged_frame.
Qed.

(** ** Claims *)

(** C1. A delivery attempt that succeeds sets [webhook_status] to SENT and
    leaves [webhook_attempts] as it was; one that fails sets it to FAILED
    and adds exactly 1 to [webhook_attempts], a NULL counter counting as
    0.  With a destination configured and the recording update completing,
    [sendWebhook] returns whether the post succeeded; and whenever it
    returns [b], every row of the invoice's id stands as [recorded] says
    for [b] while every other row is untouched. *)
Theorem delivery_outcome_recorded (w : World) (url : option string)
        (inv : Row) (s : Sys) :
  truthy url = true ->
  (query_error w (queries s) = None ->
   exists s', sendWebhook w url (Some inv) s
              = (Returned (is_2xx (post_outcome w (posts s))), s')) /\
  (forall b s', sendWebhook w url (Some inv) s = (Returned b, s') ->
                Forall2 (recorded (id inv) b) (db s) (db s')).
Proof.
  intros Hu. destruct (truthy_Some url Hu) as [u ->]. split.
  - intros Hq.
    destruct (sendWebhook_runs w u inv s Hu) as (content & s1 & _ & Hrun).
    destruct (sendWebhook w (Some u) (Some inv) s) as [o s'].
    exists s'. unfold sendWebhook_run in Hrun; simpl in Hrun.
    destruct Hrun as [_ Hrun]. rewrite Hq in Hrun.
    destruct (post_outcome w (posts s)); simpl.
    + destruct Hrun as (-> & _); reflexivity.
    + destruct Hrun as (_ & -> & _); reflexivity.
  - intros b s' Hres.
    pose proof (sendWebhook_db w u inv s Hu) as Hdb.
    rewrite Hres in Hdb; simpl in Hdb.
    destruct Hdb as [[Hb ->] | [[Hb ->] | [[m Hb] _]]].
    + inversion Hb; subst. apply mark_sent_recorded.
    + inversion Hb; subst. apply mark_failed_recorded.
    + discriminate.
Qed.

Lemma delivery_outcome_recorded_witness :
  truthy hook = true /\
  Forall2 (recorded "inv-B" false)
          [invoice_A; invoice_B]
          (db (snd (sendWebhook w_net_down hook (Some invoice_B)
                                (start [invoice_A; invoice_B])))).
Proof.
  split; [reflexivity|].
  apply (proj2 (delivery_outcome_recorded w_net_down hook invoice_B
                  (start [invoice_A; invoice_B]) eq_refl) false).
  reflexivity.
Defined.

(** C2. The query of a tick selects an invoice only if its status is
    APPROVED, its [webhook_status] is FAILED or PENDING and its
    [webhook_attempts] is NULL or below 10; so an invoice whose status is
    not APPROVED, or whose attempts are 10 or more, is never selected. *)
Theorem retry_selects_only_eligible (t : Table) (r : Row) :
  In r (select_retry_candidates t) ->
  In r t /\ retry_eligible_spec r /\
  status r = Some "APPROVED" /\
  (forall n, webhook_attempts r = Some n -> (n < 10)%Z).
Proof.
  intros H. apply selected_in_table in H. destruct H as [Hin He].
  apply retry_eligible_iff in He.
  split; [exact Hin|]. split; [exact He|].
  destruct He as (Hs & _ & Ha). split; [exact Hs|].
  intros n Hn. destruct Ha as [Ha | (m & Hm & Hlt)]; congruence.
Qed.

Lemma retry_selects_only_eligible_witness :
  In invoice_B (select_retry_candidates [invoice_draft; invoice_A; invoice_B]) /\
  status invoice_B = Some "APPROVED".
Proof.
  assert (H : In invoice_B
                 (select_retry_candidates [invoice_draft; invoice_A; invoice_B]))
    by (vm_compute; auto).
  split; [exact H|].
  exact (proj1 (proj2 (proj2 (retry_selects_only_eligible _ _ H)))).
Defined.

(** C3, as the specification has it, puts the recording of the outcome
    outside [sendWebhook].  It fails: after a delivery to a destination
    that answers, [sendWebhook] has itself rewritten the invoice's row. *)
Lemma sendWebhook_updates_table :
  db (snd (sendWebhook w_up hook (Some invoice_A) (start [invoice_A])))
  = [set_sent invoice_A] /\
  db (snd (sendWebhook w_up hook (Some invoice_A) (start [invoice_A])))
  <> db (start [invoice_A]).
Proof.
  split; [reflexivity | vm_compute; discriminate].
Qed.

(** C3, amended.  [sendWebhook] records the outcome itself.  With a
    destination configured it makes exactly one post; once the recording
    update completes it returns whether the post succeeded; when it
    returns [true] the rows of the invoice's id have been set to SENT,
    when it returns [false] they have been set to FAILED with one attempt
    more, and when it throws the table is as it was.  That is all it
    changes: rows with another id are left as they are and rows with the
    invoice's id keep every column but [webhook_status] and
    [webhook_attempts]; it never makes more than one post. *)
Theorem sendWebhook_frame (w : World) (url : option string)
        (invoice : option Row) (s : Sys) :
  let res := sendWebhook w url invoice s in
  let s' := snd res in
  match invoice with
  | Some inv => Forall2 (delivery_frame (id inv)) (db s) (db s')
  | None => db s' = db s
  end /\
  (posts s' <= S (posts s))%nat /\
  (forall inv,
      invoice = Some inv -> truthy url = true ->
      posts s' = S (posts s) /\
      (query_error w (queries s) = None ->
       fst res = Returned (is_2xx (post_outcome w (posts s)))) /\
      (fst res = Returned true -> db s' = mark_sent (id inv) (db s)) /\
      (fst res = Returned false -> db s' = mark_failed (id inv) (db s)) /\
      (forall e, fst res = Thrown e -> db s' = db s)).
Proof.
  split; [|split; [apply sendWebhook_posts_le|]].
  - destruct invoice as [inv|].
    + apply sendWebhook_delivery_frame.
    + apply sendWebhook_undefined.
  - intros inv -> Hu. destruct (truthy_Some url Hu) as [u ->].
    destruct (sendWebhook_runs w u inv s Hu) as (content & s1 & _ & Hrun).
    pose proof (sendWebhook_db w u inv s Hu) as Hdb. simpl in Hdb.
    destruct (sendWebhook w (Some u) (Some inv) s) as [o s'].
    unfold sendWebhook_run in Hrun. simpl in *.
    destruct Hrun as [Hp Hrun]. split; [exact Hp|]. split; [|split; [|split]].
    + intros Hq. rewrite Hq in Hrun.
      destruct (post_outcome w (posts s)); simpl.
      * destruct Hrun as (-> & _); reflexivity.
      * destruct Hrun as (_ & -> & _); reflexivity.
    + intros ->. destruct Hdb as [[_ H] | [[H _] | [[m H] _]]];
        [exact H | discriminate | discriminate].
    + intros ->. destruct Hdb as [[H _] | [[_ H] | [[m H] _]]];
        [discriminate | exact H | discriminate].
    + intros e ->. destruct Hdb as [[H _] | [[H _] | [_ H]]];
        [discriminate | discriminate | exact H].
Qed.

Lemma sendWebhook_frame_witness :
  truthy hook = true /\
  db (snd (sendWebhook w_net_down hook (Some invoice_B)
                       (start [invoice_A; invoice_B])))
  = mark_failed "inv-B" [invoice_A; invoice_B].
Proof.
  split; [reflexivity|].
  destruct (proj2 (proj2 (sendWebhook_frame w_net_down hook (Some invoice_B)
                            (start [invoice_A; invoice_B])))
                  invoice_B eq_refl eq_refl)
    as (_ & Hret & _ & Hfailed & _).
  exact (Hfailed (Hret eq_refl)).
Defined.

(** C5. With no destination configured, [sendWebhook] returns [false] at
    once, a tick of the retry job does nothing, the trigger of the approval
    route only writes a log line, and the approval route as a whole makes
    no post: no network call, no query by the delivery code, no change of
    the table. *)
Theorem no_destination_no_effect (w : World) (url : option string) :
  truthy url = false ->
  (forall invoice s, sendWebhook w url invoice s = (Returned false, s)) /\
  (forall s, retryJob w url s = (Returned tt, s)) /\
  (forall row s, triggerHook w url row s
                 = (Returned tt, record (EvLog LogNoWebhookUrl) s)) /\
  (forall vercel req s,
      let s' := snd (approve w url vercel req s) in
      posts s' = posts s /\
      (db s' = db s \/
       db s' = db (snd (approve_commit w vercel req s)))).
Proof.
  intros Hu. split; [|split; [|split]].
  - intros invoice s. apply sendWebhook_unconfigured; exact Hu.
  - intros s. unfold retryJob, try_catch. rewrite Hu. reflexivity.
  - intros row s. unfold triggerHook. rewrite Hu. reflexivity.
  - intros vercel req s. unfold approve.
    destruct (truthy (body_pdfBase64 req)); simpl; [|auto].
    assert (Hc : posts (snd (approve_commit w vercel req s)) = posts s).
    { unfold approve_commit, bind, Date_now, writeFileSync, pool_query, ret.
      destruct (truthy vercel); simpl.
      - destruct (query_error w (queries s)); reflexivity.
      - destruct (write_error w (files_used s)); simpl; [reflexivity|].
        destruct (query_error w (queries s)); reflexivity. }
    unfold try_catch, bind, triggerHook. rewrite Hu.
    unfold console, field, ret, throw, record.
    destruct (approve_commit w vercel req s) as [[row|e] s1]; simpl in *.
    + destruct row; simpl; auto.
    + auto.
Qed.

Lemma no_destination_no_effect_witness :
  truthy (Some "") = false /\
  retryJob w_up (Some "") (start [invoice_A; invoice_B])
  = (Returned tt, start [invoice_A; invoice_B]).
Proof.
  split; [reflexivity|].
  exact (proj1 (proj2 (no_destination_no_effect w_up (Some "") eq_refl))
               (start [invoice_A; invoice_B])).
Defined.

Lemma approve_update_reset (new_total : option string) (pdfUrl i phone : string)
      (t : Table) :
  Forall2 (approval_reset i phone) t (approve_update new_total pdfUrl i phone t).
Proof.
  apply Forall2_update_where. intros r _. unfold approval_reset.
  destruct (has_id_phone i phone r) eqn:E.
  - split; [intros _; simpl; auto|].
    apply has_id_phone_true in E. intros Hn; contradiction.
  - split; [|reflexivity].
    intros H. apply has_id_phone_true in H. congruence.
Qed.

(** C6. The approval sets [status] to APPROVED, [webhook_status] to
    PENDING and [webhook_attempts] to 0 on the invoice's row, whatever
    these columns held before, and leaves the other rows alone: when the
    PDF can be written (or the server runs on Vercel) and the update
    completes, [approve_commit] returns the first updated row and the
    table stands so. *)
Theorem approval_resets_delivery_fields (w : World) (vercel : option string)
        (req : ApproveRequest) (s : Sys) :
  (truthy vercel = false -> write_error w (files_used s) = None) ->
  query_error w (queries s) = None ->
  exists pdfUrl s',
    approve_commit w vercel req s
    = (Returned (hd_error (map (set_approved (body_total req) pdfUrl)
                               (filter (has_id_phone (param_id req) (param_phone req))
                                       (db s)))), s') /\
    db s' = approve_update (body_total req) pdfUrl (param_id req) (param_phone req) (db s) /\
    Forall2 (approval_reset (param_id req) (param_phone req)) (db s) (db s').
Proof.
  intros Hw Hq.
  unfold approve_commit, bind, Date_now, writeFileSync, pool_query, ret.
  destruct (truthy vercel); simpl.
  - rewrite Hq. simpl. eexists _, _. split; [reflexivity|]. simpl.
    split; [reflexivity | apply approve_update_reset].
  - rewrite (Hw eq_refl). simpl. rewrite Hq. simpl.
    eexists _, _. split; [reflexivity|]. simpl.
    split; [reflexivity | apply approve_update_reset].
Qed.

Lemma approval_resets_delivery_fields_witness :
  Forall2 (approval_reset "inv-B" "919900000002")
          [invoice_A; invoice_B]
          [invoice_A;
           mkRow "inv-B" "919900000002" (Some "Bolt Supplies") (Some "80.00")
                 (Some "APPROVED")
                 (Some "http://localhost:5000/invoices/files/invoice_919900000002_inv-B_1714557600000.pdf")
                 (Some "PENDING") (Some 0%Z)].
Proof.
  destruct (approval_resets_delivery_fields w_up None
              (mkApproveRequest "inv-B" "919900000002" (Some "JVBERi0xLjMK")
                                (Some "80.00") "http" "localhost:5000")
              (start [invoice_A; invoice_B])
              (fun _ => eq_refl) eq_refl)
    as (pdfUrl & s' & Hrun & Hdb & Hreset).
  vm_compute in Hrun. inversion Hrun; subst s'. exact Hreset.
Defined.

Lemma read_pdf_unresolved (w : World) (inv : Row) (p : string) (s : Sys) :
  pdf_unresolved w s (pop (split "/" p)) ->
  exists s1, read_pdf w (Some inv) (Some p) s = (Returned None, s1).
Proof.
  intros Hun.
  destruct (read_pdf_returns w inv (Some p) s)
    as (content & s1 & Hread & _ & _ & _ & Hc).
  exists s1. rewrite Hread. destruct content as [c|]; [|reflexivity].
  destruct (Hc c eq_refl) as [H0 H1]. exfalso.
  unfold pdf_unresolved in Hun.
  destruct (file_at w (files_used s) (pop (split "/" p))).
  - apply H0; reflexivity.
  - apply (Hun c); exact H1.
  - apply (Hun c); exact H1.
Qed.

(** C9. When the invoice has a [pdf_url] but the file it names is missing
    or cannot be read, [sendWebhook] still posts the notification, with
    [pdf_base64] null; the delivery then succeeds or fails by the post and
    the recording alone, so a destination that answers gives [true] and
    SENT. *)
Theorem unresolved_pdf_is_not_fatal (w : World) (url : option string)
        (inv : Row) (p : string) (s : Sys) :
  truthy url = true ->
  pdf_url inv = Some p ->
  pdf_unresolved w s (pop (split "/" p)) ->
  let res := sendWebhook w url (Some inv) s in
  (exists u body,
      url = Some u /\
      In (EvPost u body (post_outcome w (posts s))) (trace (snd res)) /\
      invoice_id body = id inv /\
      payload_pdf_url body = Some p /\
      pdf_base64 body = None) /\
  (post_outcome w (posts s) = Http2xx ->
   query_error w (queries s) = None ->
   fst res = Returned true /\ db (snd res) = mark_sent (id inv) (db s)).
Proof.
  intros Hu Hp Hun res. destruct (truthy_Some url Hu) as [u ->].
  destruct (sendWebhook_runs w u inv s Hu) as (content & s1 & Hread & Hrun).
  fold res in Hrun.
  destruct (read_pdf_unresolved w inv p s Hun) as (s1' & Hread').
  rewrite Hp, Hread' in Hread. inversion Hread; subst content s1'.
  unfold sendWebhook_run in Hrun. destruct Hrun as [_ Hrun]. split.
  - exists u, (body_of w inv None s).
    split; [reflexivity|]. split; [|simpl; auto].
    destruct (post_outcome w (posts s)) as [|m].
    + destruct (query_error w (queries s)) as [e|].
      * destruct Hrun as [_ Hrun].
        destruct (query_error w (S (queries s)));
          destruct Hrun as (_ & _ & ->); simpl; auto.
      * destruct Hrun as (_ & _ & _ & ->); simpl; auto.
    + destruct Hrun as [_ Hrun].
      destruct (query_error w (queries s));
        destruct Hrun as (_ & _ & ->); simpl; auto.
  - intros Ho Hq. rewrite Ho, Hq in Hrun.
    destruct Hrun as (Hr & Hdb & _). auto.
Qed.

Lemma unresolved_pdf_is_not_fatal_witness :
  truthy hook = true /\
  pdf_unresolved w_up (start [invoice_A])
    (pop (split "/" "http://localhost:5000/invoices/files/invoice_919900000001_inv-A_1.pdf")) /\
  fst (sendWebhook w_up hook (Some invoice_A) (start [invoice_A])) = Returned true.
Proof.
  split; [reflexivity|]. split; [exact I|].
  exact (proj1 (proj2 (unresolved_pdf_is_not_fatal w_up hook invoice_A _
                         (start [invoice_A]) eq_refl eq_refl I)
                      eq_refl eq_refl)).
Defined.

(** C10. A notification that reached the destination can be recorded as
    failed: when the post succeeds but the update to SENT is rejected and
    the update of the catch branch completes, [sendWebhook] returns
    [false] with the invoice FAILED and its attempts incremented, although
    the post was answered with success. *)
Theorem delivered_yet_recorded_failed (w : World) (url : option string)
        (inv : Row) (s : Sys) (e : string) :
  truthy url = true ->
  post_outcome w (posts s) = Http2xx ->
  query_error w (queries s) = Some e ->
  query_error w (S (queries s)) = None ->
  exists s' u body,
    sendWebhook w url (Some inv) s = (Returned false, s') /\
    In (EvPost u body Http2xx) (trace s') /\
    invoice_id body = id inv /\
    db s' = mark_failed (id inv) (db s) /\
    Forall2 (recorded (id inv) false) (db s) (db s').
Proof.
  intros Hu Ho Hq Hq'. destruct (truthy_Some url Hu) as [u ->].
  destruct (sendWebhook_runs w u inv s Hu) as (content & s1 & _ & Hrun).
  destruct (sendWebhook w (Some u) (Some inv) s) as [o s'].
  unfold sendWebhook_run in Hrun; simpl in Hrun.
  rewrite Ho, Hq, Hq' in Hrun.
  destruct Hrun as (_ & _ & -> & Hdb & Ht).
  exists s', u, (body_of w inv content s).
  split; [reflexivity|]. split; [rewrite Ht; simpl; auto|].
  split; [reflexivity|]. split; [exact Hdb|].
  rewrite Hdb. apply mark_failed_recorded.
Qed.

Lemma delivered_yet_recorded_failed_witness :
  exists s',
    sendWebhook w_db_blip hook (Some invoice_A) (start [invoice_A])
    = (Returned false, s') /\
    db s' = [set_failed invoice_A].
Proof.
  destruct (delivered_yet_recorded_failed w_db_blip hook invoice_A
              (start [invoice_A]) "Connection terminated unexpectedly"
              eq_refl eq_refl eq_refl eq_refl)
    as (s' & u & body & Hrun & _ & _ & Hdb & _).
  exists s'. split; [exact Hrun | exact Hdb].
Defined.

(** ** One tick of the retry job *)

Lemma NoDup_map_filter {A B : Type} (g : A -> B) (f : A -> bool) (l : list A) :
  NoDup (map g l) -> NoDup (map g (filter f l)).
Proof.
  induction l as [|a l IH]; simpl; intros H; [constructor|].
  inversion H as [|? ? Hnin Hnd]; subst.
  destruct (f a); simpl; [|auto].
  constructor; [|auto].
  intros Hin. apply Hnin. apply in_map_iff in Hin.
  destruct Hin as (x & Hx & Hxin). apply filter_In in Hxin.
  apply in_map_iff. exists x. tauto.
Qed.

Lemma NoDup_map_firstn {A B : Type} (g : A -> B) (n : nat) (l : list A) :
  NoDup (map g l) -> NoDup (map g (firstn n l)).
Proof.
  revert l. induction n as [|n IH]; intros [|a l]; simpl; intros H;
    try constructor.
  - inversion H as [|? ? Hnin Hnd]; subst.
    intros Hin. apply Hnin. apply in_map_iff in Hin.
    destruct Hin as (x & Hx & Hxin). apply In_firstn in Hxin.
    apply in_map_iff. exists x. tauto.
  - inversion H; subst. auto.
Qed.

Lemma NoDup_map_injective_on {A B : Type} (g : A -> B) (l : list A) (x y : A) :
  NoDup (map g l) -> In x l -> In y l -> g x = g y -> x = y.
Proof.
  induction l as [|a l IH]; simpl; intros H Hx Hy Hg; [contradiction|].
  inversion H as [|? ? Hnin Hnd]; subst.
  destruct Hx as [->|Hx], Hy as [->|Hy]; auto.
  - exfalso. apply Hnin. rewrite Hg. apply in_map; exact Hy.
  - exfalso. apply Hnin. rewrite <- Hg. apply in_map; exact Hx.
Qed.

Lemma NoDup_app_disjoint {A : Type} (l1 l2 : list A) (x : A) :
  NoDup (l1 ++ l2) -> In x l1 -> In x l2 -> False.
Proof.
  induction l1 as [|a l1 IH]; simpl; intros H H1 H2; [contradiction|].
  inversion H as [|? ? Hnin Hnd]; subst.
  destruct H1 as [->|H1]; [|auto].
  apply Hnin. apply in_or_app; right; exact H2.
Qed.

Lemma select_ids_NoDup (t : Table) :
  NoDup (map id t) -> NoDup (map id (select_retry_candidates t)).
Proof.
  intros H. unfold select_retry_candidates.
  apply NoDup_map_firstn, NoDup_map_filter, H.
Qed.

(** The tick, by the answer to its query. *)
Lemma retryJob_unfold (w : World) (url : option string) (s : Sys) :
  retryJob w url s =
  if truthy url then
    match query_error w (queries s) with
    | Some e =>
        (Returned tt,
         record (EvLog (ErrRetryJob e))
                (mkSys (db s) (EvQuery QSelectRetry (Some e) :: trace s)
                       (files_used s) (posts s) (S (queries s))))
    | None =>
        match select_retry_candidates (db s) with
        | [] => (Returned tt,
                 mkSys (db s) (EvQuery QSelectRetry None :: trace s)
                       (files_used s) (posts s) (S (queries s)))
        | _ :: _ =>
            try_catch (retry_each w url (select_retry_candidates (db s)))
                      log_retry_error (after_select s)
        end
    end
  else (Returned tt, s).
Proof.
  unfold retryJob, try_catch. destruct (truthy url); simpl; [|reflexivity].
  unfold bind at 1. unfold pool_query at 1.
  destruct (query_error w (queries s)) as [e|]; simpl; [reflexivity|].
  unfold after_select.
  destruct (select_retry_candidates (db s)) as [|r rows]; reflexivity.
Qed.

Lemma retry_logged (w : World) (url : option string) (rows : list Row) (s : Sys) :
  let res := try_catch (retry_each w url rows) log_retry_error s in
  fst res = Returned tt /\
  db (snd res) = db (snd (retry_each w url rows s)) /\
  posts (snd res) = posts (snd (retry_each w url rows s)).
Proof.
  unfold try_catch, log_retry_error, console.
  destruct (retry_each w url rows s) as [[[]|e] s']; simpl; auto.
Qed.

Lemma retry_each_cons (w : World) (url : option string) (r : Row)
      (rows : list Row) (s : Sys) :
  retry_each w url (r :: rows) s =
  match sendWebhook w url (Some r) s with
  | (Returned _, s') => retry_each w url rows s'
  | (Thrown e, s') => (Thrown e, s')
  end.
Proof.
  unfold retry_each. simpl. unfold bind, ret.
  destruct (sendWebhook w url (Some r) s) as [[b|e] s']; reflexivity.
Qed.

(** Each selected invoice costs at most one post, thrown or not. *)
Lemma retry_each_posts_le (w : World) (url : option string) (rows : list Row) :
  forall s, (posts (snd (retry_each w url rows s)) <= posts s + List.length rows)%nat.
Proof.
  induction rows as [|r rows IH]; intros s.
  - simpl. lia.
  - rewrite retry_each_cons.
    pose proof (sendWebhook_posts_le w url (Some r) s) as Hp.
    destruct (sendWebhook w url (Some r) s) as [[b|e] s']; simpl in *.
    + specialize (IH s'). lia.
    + lia.
Qed.

Lemma update_where_hit (cond : Row -> bool) (f : Row -> Row) (t : Table) (r : Row) :
  In r t -> cond r = true -> In (f r) (update_where cond f t).
Proof.
  intros Hin Hc. unfold update_where. apply in_map_iff.
  exists r. rewrite Hc. auto.
Qed.

(** While the database answers, no run throws: the loop reaches every
    selected invoice, posts once for each, records SENT or FAILED on its
    row, and leaves alone the rows whose id is not among theirs. *)
Lemma retry_each_complete (w : World) (u : string) (rows : list Row) :
  truthy (Some u) = true ->
  (forall n, query_error w n = None) ->
  NoDup (map id rows) ->
  forall s, exists s',
    retry_each w (Some u) rows s = (Returned tt, s') /\
    posts s' = (posts s + List.length rows)%nat /\
    (forall r, In r (db s) -> ~ In (id r) (map id rows) -> In r (db s')) /\
    (forall r, In r rows -> In r (db s) ->
               In (set_sent r) (db s') \/ In (set_failed r) (db s')).
Proof.
  intros Hu Hdb. induction rows as [|r0 rows IH]; intros Hnd s.
  - exists s. simpl. repeat split; auto. intros r [].
  - rewrite retry_each_cons.
    inversion Hnd as [|? ? Hnin Hnd']; subst.
    destruct (sendWebhook_runs w u r0 s Hu) as (content & s1 & _ & Hrun).
    unfold sendWebhook_run in Hrun.
    destruct (sendWebhook w (Some u) (Some r0) s) as [o s0]; simpl in Hrun.
    destruct Hrun as [Hp Hrun]. rewrite (Hdb (queries s)) in Hrun.
    assert (Hstep : exists b, o = Returned b /\
              (forall r, In r (db s) -> id r <> id r0 -> In r (db s0)) /\
              (In r0 (db s) ->
               In (set_sent r0) (db s0) \/ In (set_failed r0) (db s0))).
    { destruct (post_outcome w (posts s)).
      - destruct Hrun as (-> & -> & _). exists true. split; [reflexivity|]. split.
        + intros r Hin Hne. apply update_where_other; [exact Hin|].
          apply has_id_false; exact Hne.
        + intros Hin. left. apply update_where_hit; [exact Hin|].
          apply has_id_true; reflexivity.
      - destruct Hrun as (_ & -> & -> & _). exists false. split; [reflexivity|]. split.
        + intros r Hin Hne. apply update_where_other; [exact Hin|].
          apply has_id_false; exact Hne.
        + intros Hin. right. apply update_where_hit; [exact Hin|].
          apply has_id_true; reflexivity. }
    destruct Hstep as (b & -> & Hkeep & Hhit).
    destruct (IH Hnd' s0) as (s' & Hloop & Hposts & Hrest & Hdone).
    exists s'. split; [exact Hloop|]. split; [|split].
    + rewrite Hposts, Hp. simpl. lia.
    + intros r Hin Hnot. apply Hrest.
      * apply Hkeep; [exact Hin|]. intros Heq. apply Hnot. left; auto.
      * intros Hin'. apply Hnot. right; exact Hin'.
    + intros r [<-|Hr] Hin.
      * destruct (Hhit Hin) as [H|H]; [left|right]; apply Hrest; auto.
      * apply Hdone; [exact Hr|].
        apply Hkeep; [exact Hin|]. intros Heq. apply Hnin.
        rewrite <- Heq. apply in_map; exact Hr.
Qed.

(** *** A delivery that throws, seen from its callers *)

Lemma retry_each_app (w : World) (url : option string) (done rows : list Row) :
  forall s,
    retry_each w url (done ++ rows) s =
    match retry_each w url done s with
    | (Returned _, s0) => retry_each w url rows s0
    | (Thrown e, s') => (Thrown e, s')
    end.
Proof.
  induction done as [|x done IH]; intros s.
  - reflexivity.
  - simpl app. rewrite !retry_each_cons.
    destruct (sendWebhook w url (Some x) s) as [[b|e] s1]; [apply IH | reflexivity].
Qed.

(** The [try]/[catch] of the retry job: when the delivery of [inv] throws
    after the invoices before it were processed, the tick logs the error
    and returns, in the state the delivery left. *)
Lemma retryJob_logs_thrown_delivery (w : World) (url : option string)
      (s0 : Sys) (done : list Row) (inv : Row) (rest : list Row) (s : Sys)
      (e : Exn) (s' : Sys) :
  truthy url = true ->
  query_error w (queries s0) = None ->
  select_retry_candidates (db s0) = (done ++ inv :: rest)%list ->
  retry_each w url done (after_select s0) = (Returned tt, s) ->
  sendWebhook w url (Some inv) s = (Thrown e, s') ->
  retryJob w url s0 = (Returned tt, record (EvLog (ErrRetryJob (message_of e))) s').
Proof.
  intros Hu Hq Hsel Hdone Hthrow.
  rewrite retryJob_unfold, Hu, Hq.
  assert (Hloop : retry_each w url (select_retry_candidates (db s0)) (after_select s0)
                  = (Thrown e, s')).
  { rewrite Hsel, retry_each_app, Hdone, retry_each_cons, Hthrow. reflexivity. }
  destruct (select_retry_candidates (db s0)) as [|r rows] eqn:Hrows.
  - destruct done; discriminate.
  - unfold try_catch. rewrite Hloop. reflexivity.
Qed.

(** The [.catch] of the approval route. *)
Lemma triggerHook_logs_thrown (w : World) (url : option string)
      (row : option Row) (s : Sys) (e : Exn) (s' : Sys) :
  truthy url = true ->
  sendWebhook w url row s = (Thrown e, s') ->
  triggerHook w url row s
  = (Returned tt, record (EvLog (ErrImmediateTrigger (message_of e))) s').
Proof.
  intros Hu Hthrow. unfold triggerHook. rewrite Hu.
  unfold try_catch, bind. rewrite Hthrow. reflexivity.
Qed.

(** C4, as stated, has [sendWebhook] return a result on every input.  It
    fails: when the destination is down and the update that records the
    failure is rejected too, the rejection leaves [sendWebhook]. *)
Lemma sendWebhook_can_throw :
  fst (sendWebhook w_all_down hook (Some invoice_A) (start [invoice_A]))
  = Thrown (DbError "Connection terminated unexpectedly").
Proof. reflexivity. Qed.

(** C4, amended.  A post that is rejected (network failure, a response
    outside 2xx, a body that cannot be serialized) ends in [false] with the
    error message logged, provided the update that records the failure
    completes; [sendWebhook] throws exactly when that update is rejected,
    and then what it throws is the database error, which its callers log:
    the [.catch] of the approval route logs it and returns, and the
    [try]/[catch] of the retry job logs it and ends the tick there,
    returning. *)
Theorem sendWebhook_throws_only_if_recording_fails (w : World)
        (url : option string) (inv : Row) (s : Sys) :
  truthy url = true ->
  let res := sendWebhook w url (Some inv) s in
  (forall m, post_outcome w (posts s) = HttpRejected m ->
             query_error w (queries s) = None ->
             fst res = Returned false /\
             In (EvLog (ErrWebhookFailed (id inv) m)) (trace (snd res))) /\
  (forall e, fst res = Thrown e <->
             hd_error (trace (snd res))
             = Some (EvQuery (QMarkFailed (id inv)) (Some (message_of e))) /\
             e = DbError (message_of e)) /\
  (forall e, fst res = Thrown e ->
             triggerHook w url (Some inv) s
             = (Returned tt,
                record (EvLog (ErrImmediateTrigger (message_of e))) (snd res))) /\
  (forall e s0 done rest,
      fst res = Thrown e ->
      query_error w (queries s0) = None ->
      select_retry_candidates (db s0) = (done ++ inv :: rest)%list ->
      retry_each w url done (after_select s0) = (Returned tt, s) ->
      retryJob w url s0
      = (Returned tt, record (EvLog (ErrRetryJob (message_of e))) (snd res))).
Proof.
  intros Hu res.
  assert (Hcallers :
    (forall e, fst res = Thrown e ->
               triggerHook w url (Some inv) s
               = (Returned tt,
                  record (EvLog (ErrImmediateTrigger (message_of e))) (snd res))) /\
    (forall e s0 done rest,
        fst res = Thrown e ->
        query_error w (queries s0) = None ->
        select_retry_candidates (db s0) = (done ++ inv :: rest)%list ->
        retry_each w url done (after_select s0) = (Returned tt, s) ->
        retryJob w url s0
        = (Returned tt, record (EvLog (ErrRetryJob (message_of e))) (snd res)))).
  { split.
    - intros e He. apply triggerHook_logs_thrown; [exact Hu|].
      subst res. destruct (sendWebhook w url (Some inv) s); simpl in *; congruence.
    - intros e s0 done rest He Hq Hsel Hdone.
      apply (retryJob_logs_thrown_delivery w url s0 done inv rest s); auto.
      subst res. destruct (sendWebhook w url (Some inv) s); simpl in *; congruence. }
  cut ((forall m, post_outcome w (posts s) = HttpRejected m ->
                  query_error w (queries s) = None ->
                  fst res = Returned false /\
                  In (EvLog (ErrWebhookFailed (id inv) m)) (trace (snd res))) /\
       (forall e, fst res = Thrown e <->
                  hd_error (trace (snd res))
                  = Some (EvQuery (QMarkFailed (id inv)) (Some (message_of e))) /\
                  e = DbError (message_of e))).
  { intros [H1 H2]. split; [exact H1|]. split; [exact H2 | exact Hcallers]. }
  clear Hcallers.
  destruct (truthy_Some url Hu) as [u ->].
  destruct (sendWebhook_runs w u inv s Hu) as (content & s1 & _ & Hrun).
  fold res in Hrun. unfold sendWebhook_run in Hrun.
  destruct Hrun as [_ Hrun]. split.
  - intros m Hp Hq. rewrite Hp, Hq in Hrun.
    destruct Hrun as (_ & Hr & _ & Ht). split; [exact Hr|].
    rewrite Ht. simpl. auto.
  - intros e.
    destruct (post_outcome w (posts s)) as [|m].
    + destruct (query_error w (queries s)) as [e0|].
      * destruct Hrun as [_ Hrun].
        destruct (query_error w (S (queries s))) as [e'|];
          destruct Hrun as (Hr & _ & Ht); rewrite Hr, Ht; simpl.
        -- split.
           ++ intros H; inversion H; subst; simpl; auto.
           ++ intros [H1 H2]. inversion H1 as [H3]. rewrite H2, <- H3. reflexivity.
        -- split; [discriminate | intros [H _]; discriminate].
      * destruct Hrun as (Hr & _ & _ & Ht); rewrite Hr, Ht; simpl.
        split; [discriminate | intros [H _]; discriminate].
    + destruct Hrun as [_ Hrun].
      destruct (query_error w (queries s)) as [e'|];
        destruct Hrun as (Hr & _ & Ht); rewrite Hr, Ht; simpl.
      * split.
        -- intros H; inversion H; subst; simpl; auto.
        -- intros [H1 H2]. inversion H1 as [H3]. rewrite H2, <- H3. reflexivity.
      * split; [discriminate | intros [H _]; discriminate].
Qed.

Lemma sendWebhook_throws_only_if_recording_fails_witness :
  truthy hook = true /\
  fst (sendWebhook w_net_down hook (Some invoice_A) (start [invoice_A]))
  = Returned false.
Proof.
  split; [reflexivity|].
  exact (proj1 (proj1 (sendWebhook_throws_only_if_recording_fails
                         w_net_down hook invoice_A (start [invoice_A]) eq_refl)
                      "connect ECONNREFUSED" eq_refl eq_refl)).
Defined.

(** C8. A tick processes at most 10 invoices, whatever happens.  When 15
    invoices are eligible (ids being unique, the destination configured
    and the database answering), the tick posts for exactly 10 of them,
    the 10 it selected, each of which ends SENT or FAILED, and the 5 it
    did not select are in the table as they were, still eligible for the
    next tick. *)
Theorem tick_processes_ten_of_fifteen (w : World) (url : option string) (s : Sys) :
  (posts (snd (retryJob w url s)) <= posts s + 10)%nat /\
  (truthy url = true ->
   (forall n, query_error w n = None) ->
   NoDup (map id (db s)) ->
   List.length (filter retry_eligible (db s)) = 15%nat ->
   exists s',
     retryJob w url s = (Returned tt, s') /\
     posts s' = (posts s + 10)%nat /\
     List.length (select_retry_candidates (db s)) = 10%nat /\
     (forall r, In r (select_retry_candidates (db s)) ->
                In (set_sent r) (db s') \/ In (set_failed r) (db s')) /\
     List.length (skipn 10 (filter retry_eligible (db s))) = 5%nat /\
     (forall r, In r (skipn 10 (filter retry_eligible (db s))) ->
                In r (filter retry_eligible (db s')))).
Proof.
  split.
  - rewrite retryJob_unfold.
    destruct (truthy url); [|simpl; lia].
    destruct (query_error w (queries s)); [simpl; lia|].
    destruct (select_retry_candidates (db s)) as [|r rows] eqn:Hsel; [simpl; lia|].
    destruct (retry_logged w url (r :: rows) (after_select s)) as (_ & _ & ->).
    pose proof (retry_each_posts_le w url (r :: rows) (after_select s)) as Hle.
    pose proof (select_at_most_10 (db s)) as H10. rewrite Hsel in H10.
    simpl in *. lia.
  - intros Hu Hdb Hnd Hlen.
    destruct (truthy_Some url Hu) as [u ->].
    assert (Hsel : List.length (select_retry_candidates (db s)) = 10%nat).
    { unfold select_retry_candidates. rewrite length_firstn, Hlen. reflexivity. }
    destruct (retry_each_complete w u (select_retry_candidates (db s)) Hu Hdb
                                  (select_ids_NoDup (db s) Hnd) (after_select s))
      as (s' & Hloop & Hposts & Hkeep & Hdone).
    exists s'. split; [|split; [|split; [|split; [|split]]]].
    + rewrite retryJob_unfold, Hu, (Hdb (queries s)).
      destruct (select_retry_candidates (db s)) as [|r rows]; [discriminate|].
      unfold try_catch. rewrite Hloop. reflexivity.
    + rewrite Hposts, Hsel. reflexivity.
    + exact Hsel.
    + intros r Hr. apply Hdone; [exact Hr|].
      apply selected_in_table in Hr. simpl. tauto.
    + rewrite length_skipn, Hlen. reflexivity.
    + intros r0 Hr0. apply filter_In.
      pose proof (In_skipn _ _ _ Hr0) as Hin. apply filter_In in Hin.
      split; [|tauto].
      apply Hkeep; [simpl; tauto|].
      unfold select_retry_candidates. intros Hdup.
      apply (NoDup_app_disjoint
               (map id (firstn 10 (filter retry_eligible (db s))))
               (map id (skipn 10 (filter retry_eligible (db s)))) (id r0)).
      * rewrite <- map_app, firstn_skipn. apply NoDup_map_filter; exact Hnd.
      * exact Hdup.
      * apply in_map; exact Hr0.
Qed.

Lemma batch_ids_NoDup : NoDup (map id batch).
Proof.
  unfold batch, batch_ids. simpl.
  repeat (constructor; [simpl; intuition discriminate|]). constructor.
Qed.

Lemma tick_processes_ten_of_fifteen_witness :
  exists s',
    retryJob w_net_down hook (start batch) = (Returned tt, s') /\
    posts s' = 10%nat /\
    forall r, In r (map waiting ["inv-11"; "inv-12"; "inv-13"; "inv-14"; "inv-15"]) ->
              In r (filter retry_eligible (db s')).
Proof.
  destruct (proj2 (tick_processes_ten_of_fifteen w_net_down hook (start batch))
                  eq_refl (fun _ => eq_refl) batch_ids_NoDup eq_refl)
    as (s' & Hrun & Hposts & _ & _ & _ & Hrest).
  exists s'. split; [exact Hrun|]. split; [exact Hposts|]. exact Hrest.
Defined.

(** ** Transitions of [webhook_status] *)

Lemma Forall2_update_where_r (R R' : Row -> Row -> Prop) (cond : Row -> bool)
      (f : Row -> Row) (t0 t : Table) :
  (forall r r', R r r' -> R' r (if cond r' then f r' else r')) ->
  Forall2 R t0 t -> Forall2 R' t0 (update_where cond f t).
Proof.
  intros Hstep H. unfold update_where.
  induction H as [|r r' t0 t Hr _ IH]; simpl; constructor; auto.
Qed.

Lemma status_step_refl (r : Row) : status_step r r.
Proof. split; auto. Qed.

Lemma tick_invariant_weaken (x : Row) (rest : list Row) (t0 t : Table) :
  Forall2 (tick_invariant (x :: rest)) t0 t -> Forall2 (tick_invariant rest) t0 t.
Proof.
  apply Forall2_impl. intros r r' [Hs Hk]. split; [exact Hs|].
  intros Hin. apply Hk. simpl; right; exact Hin.
Qed.

Lemma tick_invariant_step (x : Row) (rest : list Row) (f : Row -> Row)
      (t0 t : Table) :
  (forall r, id (f r) = id r) ->
  (forall r, webhook_status (f r) = Some "SENT" \/
             webhook_status (f r) = Some "FAILED") ->
  NoDup (map id (x :: rest)) ->
  Forall2 (tick_invariant (x :: rest)) t0 t ->
  Forall2 (tick_invariant rest) t0 (update_where (has_id (id x)) f t).
Proof.
  intros Hid Hws Hnd. apply Forall2_update_where_r.
  intros r r' [[Hrid Hs] Hk].
  inversion Hnd as [|? ? Hnin _]; subst.
  destruct (has_id (id x) r') eqn:E.
  - apply has_id_true in E.
    assert (Hx : id r = id x) by congruence.
    destruct Hk as [-> Hpf]; [simpl; left; auto|].
    split.
    + split; [apply Hid|]. right. split; [exact Hpf | apply Hws].
    + intros Hin. exfalso. apply Hnin. rewrite <- Hx. exact Hin.
  - split; [split; assumption|].
    intros Hin. apply Hk. simpl; right; exact Hin.
Qed.

Lemma set_sent_writes (r : Row) :
  webhook_status (set_sent r) = Some "SENT" \/
  webhook_status (set_sent r) = Some "FAILED".
Proof. left; reflexivity. Qed.

Lemma set_failed_writes (r : Row) :
  webhook_status (set_failed r) = Some "SENT" \/
  webhook_status (set_failed r) = Some "FAILED".
Proof. right; reflexivity. Qed.

Lemma sendWebhook_keeps_invariant (w : World) (url : option string) (x : Row)
      (rest : list Row) (t0 : Table) (s : Sys) :
  NoDup (map id (x :: rest)) ->
  Forall2 (tick_invariant (x :: rest)) t0 (db s) ->
  Forall2 (tick_invariant rest) t0 (db (snd (sendWebhook w url (Some x) s))).
Proof.
  intros Hnd Hinv. destruct (truthy url) eqn:Hu.
  - destruct (truthy_Some url Hu) as [u ->].
    pose proof (sendWebhook_db w u x s Hu) as Hdb; simpl in Hdb.
    destruct Hdb as [[_ ->] | [[_ ->] | [_ ->]]].
    + apply tick_invariant_step; auto using set_sent_writes.
    + apply tick_invariant_step; auto using set_failed_writes.
    + apply tick_invariant_weaken with (x := x); exact Hinv.
  - rewrite (sendWebhook_unconfigured w url (Some x) s Hu). simpl.
    apply tick_invariant_weaken with (x := x); exact Hinv.
Qed.

Lemma retry_each_steps (w : World) (url : option string) (t0 : Table)
      (rows : list Row) :
  forall s,
    NoDup (map id rows) ->
    Forall2 (tick_invariant rows) t0 (db s) ->
    Forall2 status_step t0 (db (snd (retry_each w url rows s))).
Proof.
  induction rows as [|x rest IH]; intros s Hnd Hinv.
  - simpl. revert Hinv. apply Forall2_impl. intros r r' [Hs _]; exact Hs.
  - rewrite retry_each_cons.
    pose proof (sendWebhook_keeps_invariant w url x rest t0 s Hnd Hinv) as Hnext.
    destruct (sendWebhook w url (Some x) s) as [[b|e] s']; simpl in *.
    + apply IH; [inversion Hnd; assumption | exact Hnext].
    + revert Hnext. apply Forall2_impl. intros r r' [Hs _]; exact Hs.
Qed.

Lemma tick_invariant_initial (t : Table) :
  NoDup (map id t) ->
  Forall2 (tick_invariant (select_retry_candidates t)) t t.
Proof.
  intros Hnd. apply Forall2_refl_on. intros r Hin.
  split; [apply status_step_refl|].
  intros Hsel. split; [reflexivity|].
  apply in_map_iff in Hsel. destruct Hsel as (r0 & Hid & Hr0).
  apply selected_in_table in Hr0. destruct Hr0 as [Hin0 He].
  assert (r0 = r) by (apply (NoDup_map_injective_on id t); assumption).
  subst r0. apply retry_eligible_iff in He.
  destruct He as (_ & [Hf|Hp] & _); auto.
Qed.

Lemma retryJob_steps (w : World) (url : option string) (s : Sys) :
  NoDup (map id (db s)) ->
  Forall2 status_step (db s) (db (snd (retryJob w url s))).
Proof.
  intros Hnd. rewrite retryJob_unfold.
  assert (Hsame : Forall2 status_step (db s) (db s))
    by (apply Forall2_refl_on; intros; apply status_step_refl).
  destruct (truthy url); [|exact Hsame].
  destruct (query_error w (queries s)); [exact Hsame|].
  destruct (select_retry_candidates (db s)) as [|r rows] eqn:Hsel; [exact Hsame|].
  destruct (retry_logged w url (r :: rows) (after_select s)) as (_ & -> & _).
  apply retry_each_steps.
  - rewrite <- Hsel. apply select_ids_NoDup; exact Hnd.
  - rewrite <- Hsel. apply tick_invariant_initial; exact Hnd.
Qed.

(** Recording the outcome for an invoice whose rows are PENDING or FAILED
    makes a listed transition. *)
Lemma sendWebhook_steps (w : World) (url : option string) (inv : Row) (s : Sys) :
  (forall r, In r (db s) -> id r = id inv ->
             webhook_status r = Some "PENDING" \/ webhook_status r = Some "FAILED") ->
  Forall2 status_step (db s) (db (snd (sendWebhook w url (Some inv) s))).
Proof.
  intros Hpf.
  assert (Hsame : Forall2 status_step (db s) (db s))
    by (apply Forall2_refl_on; intros; apply status_step_refl).
  assert (Hupd : forall f, (forall r, id (f r) = id r) ->
            (forall r, webhook_status (f r) = Some "SENT" \/
                       webhook_status (f r) = Some "FAILED") ->
            Forall2 status_step (db s) (update_where (has_id (id inv)) f (db s))).
  { intros f Hid Hws. apply Forall2_update_where. intros r Hin.
    destruct (has_id (id inv) r) eqn:E; [|apply status_step_refl].
    apply has_id_true in E. split; [apply Hid|].
    right. split; [apply Hpf; assumption | apply Hws]. }
  destruct (truthy url) eqn:Hu.
  - destruct (truthy_Some url Hu) as [u ->].
    pose proof (sendWebhook_db w u inv s Hu) as Hdb; simpl in Hdb.
    destruct Hdb as [[_ ->] | [[_ ->] | [_ ->]]]; [| |exact Hsame].
    + apply (Hupd set_sent); [reflexivity | apply set_sent_writes].
    + apply (Hupd set_failed); [reflexivity | apply set_failed_writes].
  - rewrite (sendWebhook_unconfigured w url (Some inv) s Hu). exact Hsame.
Qed.

Lemma sendWebhook_writes (w : World) (url : option string)
      (invoice : option Row) (s : Sys) :
  Forall2 (fun r r' => delivery_write (webhook_status r) (webhook_status r'))
          (db s) (db (snd (sendWebhook w url invoice s))).
Proof.
  assert (Hsame : Forall2 (fun r r' => delivery_write (webhook_status r) (webhook_status r'))
                          (db s) (db s))
    by (apply Forall2_refl_on; intros; left; reflexivity).
  destruct invoice as [inv|]; [|rewrite sendWebhook_undefined; exact Hsame].
  destruct (truthy url) eqn:Hu.
  - destruct (truthy_Some url Hu) as [u ->].
    pose proof (sendWebhook_db w u inv s Hu) as Hdb; simpl in Hdb.
    destruct Hdb as [[_ ->] | [[_ ->] | [_ ->]]]; [| |exact Hsame];
      apply Forall2_update_where; intros r _;
      destruct (has_id (id inv) r); unfold delivery_write; simpl; auto.
  - rewrite (sendWebhook_unconfigured w url (Some inv) s Hu). exact Hsame.
Qed.

(** *** The approval followed by its trigger *)

Lemma approve_commit_cases (w : World) (vercel : option string)
      (req : ApproveRequest) (s : Sys) :
  let res := approve_commit w vercel req s in
  ((exists e, fst res = Thrown e) /\ db (snd res) = db s) \/
  (exists pdfUrl,
      fst res = Returned (hd_error (map (set_approved (body_total req) pdfUrl)
                                        (filter (has_id_phone (param_id req) (param_phone req))
                                                (db s)))) /\
      db (snd res) = approve_update (body_total req) pdfUrl
                                    (param_id req) (param_phone req) (db s)).
Proof.
  unfold approve_commit, bind, Date_now, writeFileSync, pool_query, ret.
  destruct (truthy vercel); simpl.
  - destruct (query_error w (queries s)); simpl; eauto.
  - destruct (write_error w (files_used s)); simpl; [eauto|].
    destruct (query_error w (queries s)); simpl; eauto.
Qed.

Lemma approve_db (w : World) (url vercel : option string)
      (req : ApproveRequest) (s : Sys) :
  let c := approve_commit w vercel req s in
  let s' := snd (approve w url vercel req s) in
  db s' = db s \/ db s' = db (snd c) \/
  (exists row, fst c = Returned row /\
               db s' = db (snd (sendWebhook w url row (snd c)))).
Proof.
  unfold approve. destruct (truthy (body_pdfBase64 req)); simpl; [|auto].
  unfold try_catch, bind, triggerHook.
  destruct (approve_commit w vercel req s) as [[row|e] s1]; simpl; [|auto].
  right; right. exists row. split; [reflexivity|].
  destruct (truthy url) eqn:Hu.
  - unfold try_catch, bind, ret, console, field, throw, record.
    destruct (sendWebhook w url row s1) as [[b|e] s2]; simpl;
      destruct row; reflexivity.
  - rewrite (sendWebhook_unconfigured w url row s1 Hu).
    unfold console, field, ret, throw, record. destruct row; reflexivity.
Qed.

Lemma hd_error_map_filter {A B : Type} (g : A -> B) (p : A -> bool)
      (l : list A) (y : B) :
  hd_error (map g (filter p l)) = Some y ->
  exists x, In x l /\ p x = true /\ y = g x.
Proof.
  destruct (filter p l) as [|x l'] eqn:E; simpl; intros H; [discriminate|].
  inversion H; subst. exists x.
  assert (Hin : In x (filter p l)) by (rewrite E; left; reflexivity).
  apply filter_In in Hin. tauto.
Qed.

Lemma approve_steps (w : World) (url vercel : option string)
      (req : ApproveRequest) (s : Sys) :
  NoDup (map id (db s)) ->
  exists t1,
    (t1 = db s \/
     exists pdfUrl, t1 = approve_update (body_total req) pdfUrl
                                        (param_id req) (param_phone req) (db s)) /\
    Forall2 status_step t1 (db (snd (approve w url vercel req s))).
Proof.
  intros Hnd.
  assert (Hsame : forall t, Forall2 status_step t t)
    by (intros t; apply Forall2_refl_on; intros; apply status_step_refl).
  pose proof (approve_commit_cases w vercel req s) as Hc.
  pose proof (approve_db w url vercel req s) as Hdb.
  simpl in Hc, Hdb.
  destruct Hdb as [-> | [-> | (row & Hrow & ->)]].
  - exists (db s). split; [left; reflexivity | apply Hsame].
  - destruct Hc as [[_ ->] | (pdfUrl & _ & ->)].
    + exists (db s). split; [left; reflexivity | apply Hsame].
    + eexists. split; [right; exists pdfUrl; reflexivity | apply Hsame].
  - destruct Hc as [[[e He] _] | (pdfUrl & Hr & Ht)]; [congruence|].
    exists (db (snd (approve_commit w vercel req s))).
    split; [right; exists pdfUrl; exact Ht|].
    destruct row as [r0|]; [|rewrite sendWebhook_undefined; apply Hsame].
    apply sendWebhook_steps. intros r Hin Hid. left.
    rewrite Hrow in Hr. inversion Hr as [Hhd]. symmetry in Hhd.
    apply hd_error_map_filter in Hhd. destruct Hhd as (r1 & Hin1 & Hp1 & ->).
    rewrite Ht in Hin. unfold approve_update, update_where in Hin.
    apply in_map_iff in Hin. destruct Hin as (r' & Hr' & Hin').
    assert (Hid' : id r' = id r1).
    { rewrite <- Hr' in Hid. simpl in Hid.
      destruct (has_id_phone (param_id req) (param_phone req) r'); exact Hid. }
    assert (r' = r1) by (apply (NoDup_map_injective_on id (db s)); assumption).
    subst r'. rewrite Hp1 in Hr'. subst r. reflexivity.
Qed.

(** C7, as stated, lists the only transitions of [webhook_status].  It
    fails: the updates of [sendWebhook] are keyed by id alone, so an
    outcome recorded for a row that is SENT by then overwrites it.  Here
    the trigger of the approval and the scheduler both hold the PENDING
    row of one invoice; the first delivery is answered and records SENT,
    the second is refused and takes the row from SENT to FAILED, with one
    attempt more. *)
Lemma sent_can_become_failed :
  let s1 := snd (sendWebhook w_second_post_refused hook (Some invoice_A)
                             (start [invoice_A])) in
  let s2 := snd (delivered_twice w_second_post_refused hook invoice_A
                                 (start [invoice_A])) in
  s2 = snd (sendWebhook w_second_post_refused hook (Some invoice_A) s1) /\
  map webhook_status (db s1) = [Some "SENT"] /\
  map webhook_status (db s2) = [Some "FAILED"] /\
  map webhook_attempts (db s2) = [Some 1%Z] /\
  ~ listed_transition (Some "SENT") (Some "FAILED").
Proof.
  split; [reflexivity|]. split; [reflexivity|]. split; [reflexivity|].
  split; [reflexivity|].
  intros [[H|H] _]; discriminate.
Qed.

(** C7, amended.  Recording an outcome writes SENT or FAILED over
    whatever [webhook_status] the rows of that id hold, and the approval
    writes PENDING.  The transition is one of PENDING to SENT, PENDING to
    FAILED, FAILED to SENT, FAILED to FAILED whenever the row is PENDING
    or FAILED when the outcome is recorded; that is the case for every
    row throughout a tick, and throughout an approval followed by its
    trigger once the row was reset, when ids are unique and nothing else
    writes the table meanwhile. *)
Theorem delivery_status_transitions (w : World) (url vercel : option string)
        (req : ApproveRequest) (s : Sys) :
  NoDup (map id (db s)) ->
  (forall invoice,
      Forall2 (fun r r' => delivery_write (webhook_status r) (webhook_status r'))
              (db s) (db (snd (sendWebhook w url invoice s)))) /\
  (forall inv,
      (forall r, In r (db s) -> id r = id inv ->
                 webhook_status r = Some "PENDING" \/
                 webhook_status r = Some "FAILED") ->
      Forall2 status_step (db s) (db (snd (sendWebhook w url (Some inv) s)))) /\
  Forall2 status_step (db s) (db (snd (retryJob w url s))) /\
  (exists t1,
      (t1 = db s \/
       exists pdfUrl, t1 = approve_update (body_total req) pdfUrl
                                          (param_id req) (param_phone req) (db s)) /\
      Forall2 status_step t1 (db (snd (approve w url vercel req s)))).
Proof.
  intros Hnd. split; [|split; [|split]].
  - intros invoice. apply sendWebhook_writes.
  - intros inv. apply sendWebhook_steps.
  - apply retryJob_steps; exact Hnd.
  - apply approve_steps; exact Hnd.
Qed.

Lemma delivery_status_transitions_witness :
  NoDup (map id batch) /\
  Forall2 status_step batch (db (snd (retryJob w_net_down hook (start batch)))).
Proof.
  split; [exact batch_ids_NoDup|].
  exact (proj1 (proj2 (proj2 (delivery_status_transitions
                                w_net_down hook None approve_A (start batch)
                                batch_ids_NoDup)))).
Defined.

(** * Further properties of [server.js] *)

(** ** [split], [join] and the CSV columns *)

Lemma split_not_nil (sep : ascii) (s : string) : split sep s <> [].
Proof.
  destruct s as [|c rest]; simpl; [discriminate|].
  destruct (Ascii.eqb c sep); [discriminate|].
  destruct (split sep rest); discriminate.
Qed.

Lemma join_cons (x : string) (y : string) (rest : list string) (sep : string) :
  join (x :: y :: rest) sep = (x ++ sep ++ join (y :: rest) sep)%string.
Proof. reflexivity. Qed.

Lemma join_split (sep : ascii) (s : string) :
  join (split sep s) (String sep EmptyString) = s.
Proof.
  induction s as [|c rest IH]; simpl; [reflexivity|].
  destruct (Ascii.eqb_spec c sep) as [->|Hne].
  - pose proof (split_not_nil sep rest) as Hnil.
    destruct (split sep rest) as [|seg segs]; [contradiction|].
    rewrite join_cons, IH. reflexivity.
  - pose proof (split_not_nil sep rest) as Hnil.
    destruct (split sep rest) as [|seg segs]; [contradiction|].
    destruct segs as [|seg' segs]; rewrite <- IH; reflexivity.
Qed.

Lemma split_segments_clean (sep : ascii) (s : string) :
  Forall (fun seg => has_char sep seg = false) (split sep s).
Proof.
  induction s as [|c rest IH]; simpl.
  - constructor; [reflexivity | constructor].
  - destruct (Ascii.eqb c sep) eqn:E.
    + constructor; [reflexivity | exact IH].
    + destruct (split sep rest) as [|seg segs].
      * constructor; [simpl; rewrite E; reflexivity | constructor].
      * inversion IH; subst. constructor; [|assumption].
        simpl. rewrite E. assumption.
Qed.

Lemma split_clean (sep : ascii) (x : string) :
  has_char sep x = false -> split sep x = [x].
Proof.
  induction x as [|c x IH]; simpl; [reflexivity|].
  intros H. apply orb_false_iff in H. destruct H as [Hc Hx].
  rewrite Hc, (IH Hx). reflexivity.
Qed.

Lemma split_clean_app (sep : ascii) (x rest : string) :
  has_char sep x = false ->
  split sep (x ++ String sep rest) = x :: split sep rest.
Proof.
  induction x as [|c x IH]; simpl; intros H.
  - rewrite Ascii.eqb_refl. reflexivity.
  - apply orb_false_iff in H. destruct H as [Hc Hx].
    rewrite Hc, (IH Hx). reflexivity.
Qed.

Lemma split_join (sep : ascii) (xs : list string) :
  xs <> [] ->
  Forall (fun x => has_char sep x = false) xs ->
  split sep (join xs (String sep EmptyString)) = xs.
Proof.
  induction xs as [|x xs IH]; intros Hne Hclean; [contradiction|].
  inversion Hclean as [|? ? Hx Hxs]; subst.
  destruct xs as [|y ys].
  - simpl. apply split_clean; exact Hx.
  - rewrite join_cons.
    remember (join (y :: ys) (String sep EmptyString)) as tail eqn:Htail.
    change (x ++ String sep EmptyString ++ tail)%string
      with (x ++ String sep tail)%string.
    rewrite split_clean_app by exact Hx. subst tail.
    rewrite IH; [reflexivity | discriminate | exact Hxs].
Qed.

Lemma append_assoc (a b c : string) :
  ((a ++ b) ++ c = a ++ (b ++ c))%string.
Proof.
  induction a as [|x a IH]; simpl; [reflexivity | rewrite IH; reflexivity].
Qed.

Lemma append_empty_r (a : string) : (a ++ EmptyString)%string = a.
Proof.
  induction a as [|x a IH]; simpl; [reflexivity | rewrite IH; reflexivity].
Qed.

Lemma join_last (sep : string) (l : list string) :
  l <> [] ->
  exists dir, join l sep = (dir ++ last l EmptyString)%string /\
              (dir = EmptyString \/ exists d, dir = (d ++ sep)%string).
Proof.
  induction l as [|x l IH]; intros Hne; [contradiction|].
  destruct l as [|y l'].
  - exists EmptyString. split; [reflexivity | left; reflexivity].
  - destruct IH as (dir & Hj & Hdir); [discriminate|].
    exists (x ++ sep ++ dir)%string. split.
    + rewrite join_cons, Hj.
      change (last (x :: y :: l') EmptyString) with (last (y :: l') EmptyString).
      rewrite !append_assoc. reflexivity.
    + right. destruct Hdir as [->|[d ->]].
      * exists x. rewrite append_empty_r. reflexivity.
      * exists (x ++ sep ++ d)%string. rewrite !append_assoc. reflexivity.
Qed.

Lemma array_of_strings_join (xs : list string) :
  Array_join (map JsString xs) = join xs ",".
Proof.
  unfold Array_join. simpl. rewrite map_map. simpl. rewrite map_id. reflexivity.
Qed.

Lemma join_empty_iff (xs : list string) (sep : string) :
  sep <> EmptyString ->
  (join xs sep = EmptyString <-> xs = [] \/ xs = [EmptyString]).
Proof.
  intros Hsep. split.
  - destruct xs as [|x [|y ys]].
    + auto.
    + unfold join; simpl. intros ->. auto.
    + rewrite join_cons. intros H. exfalso.
      destruct x; [|discriminate]. destruct sep; [contradiction | discriminate].
  - intros [->| ->]; reflexivity.
Qed.

(** X12. What [arrayToCsv] stores for an array of strings, given as an
    array or as a text that [JSON.parse] reads as that array, [csvToArray]
    reads back as the same array, provided no element holds a comma and
    the array is not the one holding just an empty string: that array is
    stored as the empty text, like the empty array, and read back
    empty. *)
Theorem csv_round_trip (JSON_parse : string -> option JsValue) (val : JsValue)
        (xs : list string) :
  val = JsArray (map JsString xs) \/
  (exists text, val = JsString text /\ text <> EmptyString /\
                JSON_parse text = Some (JsArray (map JsString xs))) ->
  Forall (fun x => has_char "," x = false) xs ->
  (csvToArray (Some (arrayToCsv JSON_parse val)) = xs <-> xs <> [EmptyString]).
Proof.
  intros Hval Hclean.
  assert (Hstored : arrayToCsv JSON_parse val = join xs ",").
  { destruct Hval as [->|(text & -> & Hne & Hparse)].
    - apply array_of_strings_join.
    - unfold arrayToCsv. simpl js_String. rewrite Hparse.
      destruct text; [congruence|]. simpl negb. cbv iota.
      apply array_of_strings_join. }
  rewrite Hstored. unfold csvToArray.
  destruct (join xs ",") as [|c rest] eqn:Hj.
  - apply join_empty_iff in Hj; [|discriminate]. simpl.
    destruct Hj as [->| ->]; split; congruence.
  - simpl negb. cbv iota. rewrite <- Hj.
    assert (Hne : xs <> []) by (intros ->; discriminate).
    rewrite (split_join "," xs Hne Hclean).
    split; [|reflexivity]. intros _ ->. discriminate.
Qed.

Lemma csv_round_trip_witness :
  csvToArray (Some (arrayToCsv (fun _ => None)
                               (JsArray [JsString "Cement"; JsString ""; JsString "Steel rod"])))
  = ["Cement"; ""; "Steel rod"].
Proof.
  apply (csv_round_trip (fun _ => None) _ ["Cement"; ""; "Steel rod"]).
  - left; reflexivity.
  - repeat constructor.
  - discriminate.
Defined.

(** X11. The middleware takes the leading [/api] off [req.url], once:
    [/api] followed by a rest becomes that rest, [/api] alone becomes
    [/], and a URL that does not start with [/api] is left alone; the URL
    of a request is never left empty. *)
Theorem api_prefix_stripped_once (url : string) :
  (forall rest, url = ("/api" ++ rest)%string ->
                strip_api_prefix url = match rest with
                                       | EmptyString => "/"
                                       | _ => rest
                                       end) /\
  (startsWith url "/api" = false -> strip_api_prefix url = url) /\
  (url <> EmptyString -> strip_api_prefix url <> EmptyString).
Proof.
  split; [|split].
  - intros rest ->. destruct rest; reflexivity.
  - intros H. unfold strip_api_prefix. rewrite H. reflexivity.
  - intros Hne. unfold strip_api_prefix.
    destruct (startsWith url "/api"); [|exact Hne].
    destruct (replace url "/api" ""); discriminate.
Qed.

(** X13. The file [sendWebhook] reads is named by what follows the last
    slash of [pdf_url]: the name holds no slash, and [pdf_url] is that
    name behind a prefix that is empty or ends with a slash. *)
Theorem pdf_filename_is_last_segment (p : string) :
  let filename := pop (split "/" p) in
  has_char "/" filename = false /\
  exists dir, p = (dir ++ filename)%string /\
              (dir = EmptyString \/ exists d, dir = (d ++ "/")%string).
Proof.
  simpl. unfold pop. split.
  - pose proof (split_segments_clean "/" p) as Hclean.
    pose proof (split_not_nil "/" p) as Hne.
    rewrite Forall_forall in Hclean. apply Hclean.
    destruct (split "/" p) as [|seg segs]; [contradiction|].
    apply (@exists_last _ (seg :: segs)) in Hne.
    destruct Hne as (l' & a & Hl). rewrite Hl.
    rewrite last_last. apply in_or_app; right; left; reflexivity.
  - destruct (join_last "/" (split "/" p) (split_not_nil "/" p))
      as (dir & Hj & Hdir).
    exists dir. split; [|exact Hdir].
    rewrite <- Hj. symmetry. apply (join_split "/" p).
Qed.

(** X14. [GET /invoices/pending] lists a row exactly when a phone is
    given, the row has that phone, and its status is not APPROVED, a NULL
    status included; a listed row is never eligible for the retry
    job. *)
Theorem pending_listing_complements_approved (phone_arg : option string) (r : Row) :
  (listed_pending phone_arg r = true <->
   exists p, phone_arg = Some p /\ p <> EmptyString /\
             phonenumber r = p /\ status r <> Some "APPROVED") /\
  (listed_pending phone_arg r = true -> retry_eligible r = false).
Proof.
  assert (Hiff : listed_pending phone_arg r = true <->
                 exists p, phone_arg = Some p /\ p <> EmptyString /\
                           phonenumber r = p /\ status r <> Some "APPROVED").
  { unfold listed_pending. destruct phone_arg as [p|].
    - rewrite andb_true_iff. unfold pending_condition.
      rewrite where_true_and, where_true_or, where_true_eq.
      split.
      + intros (Ht & Hs & Hp). exists p. split; [reflexivity|].
        split; [intros ->; discriminate|]. split; [congruence|].
        intros Heq. rewrite Heq in Hs. simpl in Hs.
        destruct Hs; discriminate.
      + intros (q & Hq & Hne & Hp & Hs). injection Hq as Hq'. subst q.
        split; [destruct p; [congruence | reflexivity]|].
        split; [|congruence].
        destruct (status r) as [v|]; simpl; [|auto].
        left. destruct (String.eqb_spec v "APPROVED"); [congruence | reflexivity].
    - split; [discriminate | intros (q & Hq & _); discriminate]. }
  split; [exact Hiff|].
  intros Hl. apply Hiff in Hl. destruct Hl as (p & _ & _ & _ & Hs).
  destruct (retry_eligible r) eqn:He; [|reflexivity].
  apply retry_eligible_iff in He. destruct He as (Ha & _). contradiction.
Qed.

(** X15. The update of [PUT /invoices/:id/:phone] writes the status of the
    request body and touches neither [pdf_url] nor the webhook columns.
    So once an invoice is saved with a status other than APPROVED (the
    page saves DRAFT), its row is no longer eligible for the retry job,
    whatever its [webhook_status], while rows of other invoices stay as
    they are. *)
Theorem saving_withdraws_from_retry (data : UpdateBody) (i phone_arg : string)
        (t : Table) :
  data_status data <> Some "APPROVED" ->
  Forall2 (fun r r' =>
             id r' = id r /\ pdf_url r' = pdf_url r /\
             webhook_status r' = webhook_status r /\
             webhook_attempts r' = webhook_attempts r /\
             (id r = i /\ phonenumber r = phone_arg ->
              status r' = data_status data /\ retry_eligible r' = false) /\
             (~ (id r = i /\ phonenumber r = phone_arg) -> r' = r))
          t (put_update data i phone_arg t).
Proof.
  intros Hs. apply Forall2_update_where. intros r _.
  destruct (has_id_phone i phone_arg r) eqn:E.
  - apply has_id_phone_true in E. simpl.
    do 4 (split; [reflexivity|]). split.
    + intros _. split; [reflexivity|].
      destruct (retry_eligible (set_updated data phone_arg r)) eqn:He;
        [|reflexivity].
      apply retry_eligible_iff in He. destruct He as (Ha & _).
      simpl in Ha. contradiction.
    + intros Hn; contradiction.
  - do 4 (split; [reflexivity|]). split.
    + intros Hboth. apply has_id_phone_true in Hboth. congruence.
    + reflexivity.
Qed.

Lemma saving_withdraws_from_retry_witness :
  retry_eligible invoice_A = true /\
  Forall (fun r => retry_eligible r = false)
         (put_update save_as_draft "inv-A" "919900000001" [invoice_A]).
Proof.
  split; [reflexivity|].
  pose proof (saving_withdraws_from_retry save_as_draft "inv-A" "919900000001"
                [invoice_A] ltac:(discriminate)) as H.
  inversion H as [|r r' t t' (_ & _ & _ & _ & Hhit & _) _]; subst.
  constructor; [|constructor].
  exact (proj2 (Hhit (conj eq_refl eq_refl))).
Defined.

(** ** What a tick keeps *)

Lemma Forall2_trans_on {A : Type} (R : A -> A -> Prop) :
  (forall x y z, R x y -> R y z -> R x z) ->
  forall l1 l2 l3, Forall2 R l1 l2 -> Forall2 R l2 l3 -> Forall2 R l1 l3.
Proof.
  intros Htrans l1 l2 l3 H12. revert l3.
  induction H12 as [|x y l1 l2 Hxy _ IH]; intros l3 H23;
    inversion H23; subst; constructor; eauto.
Qed.


(** A relation that both updates respect links the table before a run to
    the table after it. *)
Lemma sendWebhook_related (R : Row -> Row -> Prop) (w : World)
      (url : option string) (invoice : option Row) (s : Sys) :
  (forall r, R r r) ->
  (forall r, R r (set_sent r)) ->
  (forall r, R r (set_failed r)) ->
  Forall2 R (db s) (db (snd (sendWebhook w url invoice s))).
Proof.
  intros Hrefl Hsent Hfailed.
  assert (Hsame : Forall2 R (db s) (db s))
    by (apply Forall2_refl_on; intros; apply Hrefl).
  destruct invoice as [inv|]; [|rewrite sendWebhook_undefined; exact Hsame].
  destruct (truthy url) eqn:Hu.
  - destruct (truthy_Some url Hu) as [u ->].
    pose proof (sendWebhook_db w u inv s Hu) as Hdb; simpl in Hdb.
    destruct Hdb as [[_ ->] | [[_ ->] | [_ ->]]]; [| |exact Hsame];
      apply Forall2_update_where; intros r _;
      destruct (has_id (id inv) r); auto.
  - rewrite (sendWebhook_unconfigured w url (Some inv) s Hu). exact Hsame.
Qed.

Lemma retry_each_related (R : Row -> Row -> Prop) (w : World)
      (url : option string) (rows : list Row) :
  (forall r, R r r) ->
  (forall x y z, R x y -> R y z -> R x z) ->
  (forall r, R r (set_sent r)) ->
  (forall r, R r (set_failed r)) ->
  forall s, Forall2 R (db s) (db (snd (retry_each w url rows s))).
Proof.
  intros Hrefl Htrans Hsent Hfailed.
  induction rows as [|x rest IH]; intros s.
  - simpl. apply Forall2_refl_on; intros; apply Hrefl.
  - rewrite retry_each_cons.
    pose proof (sendWebhook_related R w url (Some x) s Hrefl Hsent Hfailed) as Hstep.
    destruct (sendWebhook w url (Some x) s) as [[b|e] s']; simpl in *.
    + apply (Forall2_trans_on R Htrans _ (db s')); [exact Hstep | apply IH].
    + exact Hstep.
Qed.

Lemma retryJob_related (R : Row -> Row -> Prop) (w : World)
      (url : option string) (s : Sys) :
  (forall r, R r r) ->
  (forall x y z, R x y -> R y z -> R x z) ->
  (forall r, R r (set_sent r)) ->
  (forall r, R r (set_failed r)) ->
  Forall2 R (db s) (db (snd (retryJob w url s))).
Proof.
  intros Hrefl Htrans Hsent Hfailed.
  assert (Hsame : Forall2 R (db s) (db s))
    by (apply Forall2_refl_on; intros; apply Hrefl).
  rewrite retryJob_unfold.
  destruct (truthy url); [|exact Hsame].
  destruct (query_error w (queries s)); [exact Hsame|].
  destruct (select_retry_candidates (db s)) as [|r rows]; [exact Hsame|].
  destruct (retry_logged w url (r :: rows) (after_select s)) as (_ & -> & _).
  apply (retry_each_related R w url (r :: rows) Hrefl Htrans Hsent Hfailed
                            (after_select s)).
Qed.

Lemma retryJob_returns (w : World) (url : option string) (s : Sys) :
  fst (retryJob w url s) = Returned tt.
Proof.
  rewrite retryJob_unfold.
  destruct (truthy url); [|reflexivity].
  destruct (query_error w (queries s)); [reflexivity|].
  destruct (select_retry_candidates (db s)) as [|r rows]; [reflexivity|].
  apply retry_logged.
Qed.

(** X1. A tick never throws.  Whatever is rejected inside it, the query
    or the recording of a delivery, is logged and the callback returns,
    so the timer goes on.  When the query itself is rejected, nothing is
    posted and the table is as it was.  When the delivery of a selected
    invoice throws, after the invoices before it were processed, the tick
    logs that error and ends there, in the state that delivery left: the
    invoices after it are not processed in this tick. *)
Theorem tick_never_throws (w : World) (url : option string) (s : Sys) :
  fst (retryJob w url s) = Returned tt /\
  (query_error w (queries s) <> None ->
   db (snd (retryJob w url s)) = db s /\
   posts (snd (retryJob w url s)) = posts s /\
   (truthy url = true ->
    exists e, hd_error (trace (snd (retryJob w url s)))
              = Some (EvLog (ErrRetryJob e)))) /\
  (forall done inv rest s1 e s',
      truthy url = true ->
      query_error w (queries s) = None ->
      select_retry_candidates (db s) = (done ++ inv :: rest)%list ->
      retry_each w url done (after_select s) = (Returned tt, s1) ->
      sendWebhook w url (Some inv) s1 = (Thrown e, s') ->
      retryJob w url s
      = (Returned tt, record (EvLog (ErrRetryJob (message_of e))) s')).
Proof.
  split; [apply retryJob_returns|]. split.
  - intros Hq. rewrite retryJob_unfold.
    destruct (truthy url); [|repeat split; discriminate].
    destruct (query_error w (queries s)) as [e|]; [|congruence].
    simpl. repeat split. intros _. exists e. reflexivity.
  - intros done inv rest s1 e s' Hu Hq Hsel Hdone Hthrow.
    apply (retryJob_logs_thrown_delivery w url s done inv rest s1); assumption.
Qed.

Lemma tick_never_throws_witness :
  let s := start [invoice_A; invoice_B] in
  retryJob w_recording_down hook s
  = (Returned tt,
     record (EvLog (ErrRetryJob "Connection terminated unexpectedly"))
            (snd (sendWebhook w_recording_down hook (Some invoice_A)
                              (after_select s)))).
Proof.
  exact (proj2 (proj2 (tick_never_throws w_recording_down hook
                         (start [invoice_A; invoice_B])))
               [] invoice_A [invoice_B]
               (after_select (start [invoice_A; invoice_B]))
               (DbError "Connection terminated unexpectedly") _
               eq_refl eq_refl eq_refl eq_refl eq_refl).
Defined.

Lemma same_invoice_data_trans (x y z : Row) :
  same_invoice_data x y -> same_invoice_data y z -> same_invoice_data x z.
Proof.
  unfold same_invoice_data. intros (A1 & A2 & A3 & A4 & A5 & A6)
                                   (B1 & B2 & B3 & B4 & B5 & B6).
  repeat split; congruence.
Qed.

(** X2. A tick rewrites nothing but [webhook_status] and
    [webhook_attempts]: every row is still there, in place, with its id,
    phone, dealer, total, status and [pdf_url]; and it never lowers a
    counter.  This holds in every world, also when a run throws. *)
Theorem tick_rewrites_delivery_columns_only (w : World) (url : option string)
        (s : Sys) :
  Forall2 (fun r r' => same_invoice_data r r' /\ (attempts_of r <= attempts_of r')%Z)
          (db s) (db (snd (retryJob w url s))).
Proof.
  apply retryJob_related.
  - intros r. split; [apply same_invoice_data_refl | lia].
  - intros x y z [H1 H2] [H3 H4]. split;
      [eapply same_invoice_data_trans; eassumption | lia].
  - intros r. split; [unfold same_invoice_data; simpl; auto 10|].
    unfold attempts_of. simpl. lia.
  - intros r. split; [unfold same_invoice_data; simpl; auto 10|].
    unfold attempts_of. simpl. destruct (webhook_attempts r); simpl; lia.
Qed.

(** ** What a tick does to the rows it selected *)

Lemma loop_invariant_weaken (P : Row -> Row -> Prop) (Q : Row -> Prop)
      (x : Row) (rest : list Row) (t0 t : Table) :
  Forall2 (loop_invariant P Q (x :: rest)) t0 t ->
  Forall2 (loop_invariant P Q rest) t0 t.
Proof.
  apply Forall2_impl. intros r r' [Hp Hk]. split; [exact Hp|].
  intros Hin. apply Hk. simpl; right; exact Hin.
Qed.

Lemma loop_invariant_step (P : Row -> Row -> Prop) (Q : Row -> Prop)
      (x : Row) (rest : list Row) (f : Row -> Row) (t0 t : Table) :
  (forall r, Q r -> P r (f r)) ->
  NoDup (map id (x :: rest)) ->
  Forall2 (fun r r' => id r' = id r) t0 t ->
  Forall2 (loop_invariant P Q (x :: rest)) t0 t ->
  Forall2 (loop_invariant P Q rest) t0 (update_where (has_id (id x)) f t).
Proof.
  intros Hf Hnd Hids Hinv. unfold update_where.
  inversion Hnd as [|? ? Hnin _]; subst.
  induction Hinv as [|r r' t0 t [Hp Hk] _ IH]; simpl; [constructor|].
  inversion Hids; subst. constructor; [|apply IH; assumption].
  destruct (has_id (id x) r') eqn:E.
  - apply has_id_true in E.
    assert (Hx : id r = id x) by congruence.
    destruct Hk as [-> Hq]; [simpl; left; auto|].
    split; [apply Hf; exact Hq|].
    intros Hin. exfalso. apply Hnin. rewrite <- Hx. exact Hin.
  - split; [exact Hp|].
    intros Hin. apply Hk. simpl; right; exact Hin.
Qed.

Lemma ids_kept_by_update (i : string) (f : Row -> Row) (t0 t : Table) :
  (forall r, id (f r) = id r) ->
  Forall2 (fun r r' => id r' = id r) t0 t ->
  Forall2 (fun r r' => id r' = id r) t0 (update_where (has_id i) f t).
Proof.
  intros Hf. apply Forall2_update_where_r.
  intros r r' Hid. destruct (has_id i r'); [rewrite Hf|]; exact Hid.
Qed.

Lemma sendWebhook_keeps_loop_invariant (P : Row -> Row -> Prop) (Q : Row -> Prop)
      (w : World) (url : option string) (x : Row) (rest : list Row)
      (t0 : Table) (s : Sys) :
  (forall r, Q r -> P r (set_sent r) /\ P r (set_failed r)) ->
  NoDup (map id (x :: rest)) ->
  Forall2 (fun r r' => id r' = id r) t0 (db s) ->
  Forall2 (loop_invariant P Q (x :: rest)) t0 (db s) ->
  let s' := snd (sendWebhook w url (Some x) s) in
  Forall2 (fun r r' => id r' = id r) t0 (db s') /\
  Forall2 (loop_invariant P Q rest) t0 (db s').
Proof.
  intros Hstep Hnd Hids Hinv. simpl.
  assert (Hweak : Forall2 (loop_invariant P Q rest) t0 (db s))
    by (apply loop_invariant_weaken with (x := x); exact Hinv).
  destruct (truthy url) eqn:Hu.
  - destruct (truthy_Some url Hu) as [u ->].
    pose proof (sendWebhook_db w u x s Hu) as Hdb; simpl in Hdb.
    destruct Hdb as [[_ ->] | [[_ ->] | [_ ->]]]; [| |auto].
    + split; [apply ids_kept_by_update; auto|].
      apply loop_invariant_step; auto. intros r Hq. apply Hstep; exact Hq.
    + split; [apply ids_kept_by_update; auto|].
      apply loop_invariant_step; auto. intros r Hq. apply Hstep; exact Hq.
  - rewrite (sendWebhook_unconfigured w url (Some x) s Hu). simpl. auto.
Qed.

Lemma retry_each_invariant (P : Row -> Row -> Prop) (Q : Row -> Prop)
      (w : World) (url : option string) (t0 : Table) (rows : list Row) :
  (forall r, Q r -> P r (set_sent r) /\ P r (set_failed r)) ->
  forall s,
    NoDup (map id rows) ->
    Forall2 (fun r r' => id r' = id r) t0 (db s) ->
    Forall2 (loop_invariant P Q rows) t0 (db s) ->
    Forall2 P t0 (db (snd (retry_each w url rows s))).
Proof.
  intros Hstep. induction rows as [|x rest IH]; intros s Hnd Hids Hinv.
  - simpl. revert Hinv. apply Forall2_impl. intros r r' [Hp _]; exact Hp.
  - rewrite retry_each_cons.
    pose proof (sendWebhook_keeps_loop_invariant P Q w url x rest t0 s
                  Hstep Hnd Hids Hinv) as [Hids' Hnext].
    destruct (sendWebhook w url (Some x) s) as [[b|e] s']; simpl in *.
    + apply IH; [inversion Hnd; assumption | exact Hids' | exact Hnext].
    + revert Hnext. apply Forall2_impl. intros r r' [Hp _]; exact Hp.
Qed.

(** With unique ids, a property that holds of every row at the query and
    that a delivery establishes on the rows the query selected holds
    between the table before the tick and the table after it. *)
Lemma retryJob_invariant (P : Row -> Row -> Prop) (Q : Row -> Prop)
      (w : World) (url : option string) (s : Sys) :
  NoDup (map id (db s)) ->
  (forall r, In r (db s) -> P r r) ->
  (forall r, In r (select_retry_candidates (db s)) -> Q r) ->
  (forall r, Q r -> P r (set_sent r) /\ P r (set_failed r)) ->
  Forall2 P (db s) (db (snd (retryJob w url s))).
Proof.
  intros Hnd Hrefl Hsel Hstep.
  assert (Hsame : Forall2 P (db s) (db s)) by (apply Forall2_refl_on; exact Hrefl).
  rewrite retryJob_unfold.
  destruct (truthy url); [|exact Hsame].
  destruct (query_error w (queries s)); [exact Hsame|].
  destruct (select_retry_candidates (db s)) as [|r0 rows] eqn:Hrows; [exact Hsame|].
  destruct (retry_logged w url (r0 :: rows) (after_select s)) as (_ & -> & _).
  apply (retry_each_invariant P Q w url (db s) (r0 :: rows) Hstep (after_select s)).
  - rewrite <- Hrows. apply select_ids_NoDup; exact Hnd.
  - simpl. apply Forall2_refl_on. reflexivity.
  - simpl. apply Forall2_refl_on. intros r Hin. split; [apply Hrefl; exact Hin|].
    intros Hid. split; [reflexivity|].
    apply in_map_iff in Hid. destruct Hid as (r1 & Hid & Hr1).
    assert (Hr1' : In r1 (select_retry_candidates (db s)))
      by (rewrite Hrows; exact Hr1).
    pose proof (proj1 (selected_in_table _ _ Hr1')) as Hin1.
    assert (r1 = r) by (apply (NoDup_map_injective_on id (db s)); assumption).
    subst r1. apply Hsel. exact Hr1.
Qed.

(** X3. With unique ids, a tick changes no row but those its query
    selected, in every world: an invoice that is not APPROVED, that is
    SENT, or that has 10 attempts, is left exactly as it was. *)
Theorem tick_changes_only_selected_rows (w : World) (url : option string) (s : Sys) :
  NoDup (map id (db s)) ->
  Forall2 (fun r r' => r' = r \/
                       (In r (select_retry_candidates (db s)) /\
                        (r' = set_sent r \/ r' = set_failed r)))
          (db s) (db (snd (retryJob w url s))).
Proof.
  intros Hnd.
  apply (retryJob_invariant
           (fun r r' => r' = r \/
                        (In r (select_retry_candidates (db s)) /\
                         (r' = set_sent r \/ r' = set_failed r)))
           (fun r => In r (select_retry_candidates (db s)))); auto.
Qed.

Lemma three_invoices_NoDup :
  NoDup (map id [invoice_A; invoice_exhausted; invoice_draft]).
Proof.
  simpl. repeat (constructor; [simpl; intuition discriminate|]). constructor.
Qed.

Lemma tick_changes_only_selected_rows_witness :
  let t := [invoice_A; invoice_exhausted; invoice_draft] in
  NoDup (map id t) /\
  Forall2 (fun r r' => r' = r \/
                       (In r (select_retry_candidates t) /\
                        (r' = set_sent r \/ r' = set_failed r)))
          t (db (snd (retryJob w_net_down hook (start t)))).
Proof.
  split; [exact three_invoices_NoDup|].
  exact (tick_changes_only_selected_rows w_net_down hook
           (start [invoice_A; invoice_exhausted; invoice_draft])
           three_invoices_NoDup).
Defined.



(** ** What is posted *)

Lemma posted_app (a b : list Event) : posted (a ++ b) = (posted a ++ posted b)%list.
Proof. unfold posted. apply flat_map_app. Qed.

Ltac split_trace :=
  first [ exists (@nil Event); split; reflexivity
        | eexists [_]; split; reflexivity
        | eexists [_; _]; split; reflexivity
        | eexists [_; _; _]; split; reflexivity ].

Lemma read_pdf_trace (w : World) (invoice : option Row) (u : option string) (s : Sys) :
  exists evs, trace (snd (read_pdf w invoice u s)) = (evs ++ trace s)%list /\
              posted evs = [].
Proof.
  unfold read_pdf. destruct (truthy u); [|split_trace].
  unfold try_catch, bind, existsSync, readFileSync, field, console, ret, throw, record.
  simpl.
  destruct (file_at w (files_used s) _); simpl; [split_trace| |];
    destruct (file_at w (S (files_used s)) _); simpl;
    destruct invoice; simpl; split_trace.
Qed.

Lemma body_of_row (w : World) (inv : Row) (content : option string) (s : Sys) :
  payload_of_row inv (body_of w inv content s).
Proof. unfold payload_of_row, body_of. simpl. auto 10. Qed.

(** A run with a destination adds its events to the trace, one post among
    them, whose body is that of the invoice. *)
Lemma sendWebhook_run_trace (w : World) (u : string) (inv : Row) (s s1 : Sys)
      (content : option string) (res : Outcome bool * Sys) :
  sendWebhook_run w u inv s s1 content res ->
  exists pre, trace (snd res) = (pre ++ trace s1)%list /\
              posted pre = [body_of w inv content s] /\
              In (EvPost u (body_of w inv content s) (post_outcome w (posts s))) pre.
Proof.
  unfold sendWebhook_run. intros [_ Hrun].
  destruct (post_outcome w (posts s)) as [|m].
  - destruct (query_error w (queries s)) as [e|].
    + destruct Hrun as [_ Hrun].
      destruct (query_error w (S (queries s)));
        destruct Hrun as (_ & _ & ->);
        eexists [_; _; _; _; _]; (split; [reflexivity|]);
        (split; [reflexivity | simpl; auto 10]).
    + destruct Hrun as (_ & _ & _ & ->).
      eexists [_; _; _; _]. split; [reflexivity|].
      split; [reflexivity | simpl; auto 10].
  - destruct Hrun as [_ Hrun].
    destruct (query_error w (queries s));
      destruct Hrun as (_ & _ & ->);
      eexists [_; _; _; _]; (split; [reflexivity|]);
      (split; [reflexivity | simpl; auto 10]).
Qed.

Lemma sendWebhook_posted (w : World) (url : option string)
      (invoice : option Row) (s : Sys) :
  exists new,
    trace (snd (sendWebhook w url invoice s)) = (new ++ trace s)%list /\
    Forall (fun body => exists inv, invoice = Some inv /\ payload_of_row inv body)
           (posted new).
Proof.
  destruct (truthy url) eqn:Hu.
  - destruct (truthy_Some url Hu) as [u ->].
    destruct invoice as [inv|].
    + destruct (sendWebhook_runs w u inv s Hu) as (content & s1 & Hread & Hrun).
      apply sendWebhook_run_trace in Hrun.
      destruct Hrun as (pre & Ht & Hp & _).
      destruct (read_pdf_trace w (Some inv) (pdf_url inv) s) as (evs & Hevs & Hnone).
      rewrite Hread in Hevs. simpl in Hevs.
      exists (pre ++ evs)%list. split.
      * rewrite Ht, Hevs. apply app_assoc.
      * rewrite posted_app, Hp, Hnone. simpl.
        constructor; [|constructor].
        exists inv. split; [reflexivity | apply body_of_row].
    + rewrite (sendWebhook_undefined_throws w (Some u) s Hu).
      exists []. split; [reflexivity | constructor].
  - rewrite (sendWebhook_unconfigured w url invoice s Hu).
    exists []. split; [reflexivity | constructor].
Qed.

Lemma retry_each_posted (w : World) (url : option string) (rows : list Row) :
  forall s, exists new,
    trace (snd (retry_each w url rows s)) = (new ++ trace s)%list /\
    Forall (fun body => exists r, In r rows /\ payload_of_row r body) (posted new).
Proof.
  induction rows as [|x rest IH]; intros s.
  - exists []. split; [reflexivity | constructor].
  - rewrite retry_each_cons.
    destruct (sendWebhook_posted w url (Some x) s) as (new1 & Ht1 & Hp1).
    assert (Hp1' : Forall (fun body => exists r, In r (x :: rest) /\ payload_of_row r body)
                          (posted new1)).
    { revert Hp1. apply Forall_impl. intros body (inv & Hinv & Hb).
      inversion Hinv; subst. exists inv. split; [left; reflexivity | exact Hb]. }
    destruct (sendWebhook w url (Some x) s) as [[b|e] s']; simpl in *.
    + destruct (IH s') as (new2 & Ht2 & Hp2).
      exists (new2 ++ new1)%list. split.
      * rewrite Ht2, Ht1. apply app_assoc.
      * rewrite posted_app. apply Forall_app. split; [|exact Hp1'].
        revert Hp2. apply Forall_impl. intros body (r & Hr & Hb).
        exists r. split; [right; exact Hr | exact Hb].
    + exists new1. split; [exact Ht1 | exact Hp1'].
Qed.

(** X5. Every notification a tick posts is that of a row its query
    selected, so of an invoice that is APPROVED with fewer than 10
    attempts, and carries that row's id, phone, [pdf_url], total and
    dealer under the event [invoice_approved]; a tick posts nothing
    else. *)
Theorem tick_posts_only_for_selected (w : World) (url : option string) (s : Sys) :
  exists new,
    trace (snd (retryJob w url s)) = (new ++ trace s)%list /\
    Forall (fun body => exists r, In r (select_retry_candidates (db s)) /\
                                  retry_eligible_spec r /\
                                  payload_of_row r body)
           (posted new).
Proof.
  rewrite retryJob_unfold.
  destruct (truthy url); [|exists []; split; [reflexivity | constructor]].
  destruct (query_error w (queries s)) as [e|].
  - eexists [_; _]. split; [reflexivity | constructor].
  - destruct (select_retry_candidates (db s)) as [|r0 rows] eqn:Hrows.
    + eexists [_]. split; [reflexivity | constructor].
    + destruct (retry_each_posted w url (r0 :: rows) (after_select s))
        as (new & Ht & Hp).
      assert (Hp' : Forall (fun body => exists r, In r (r0 :: rows) /\
                                                  retry_eligible_spec r /\
                                                  payload_of_row r body)
                           (posted new)).
      { revert Hp. apply Forall_impl. intros body (r & Hr & Hb).
        exists r. split; [exact Hr|]. split; [|exact Hb].
        apply retry_eligible_iff.
        apply (selected_in_table (db s)). rewrite Hrows. exact Hr. }
      unfold try_catch, log_retry_error, console, record.
      destruct (retry_each w url (r0 :: rows) (after_select s)) as [[[]|e] s'];
        simpl in *.
      * exists (new ++ [EvLog (LogRetrying (List.length (r0 :: rows)));
                         EvQuery QSelectRetry None])%list.
        split; [rewrite Ht, Hrows, <- app_assoc; reflexivity|].
        rewrite posted_app, app_nil_r. exact Hp'.
      * exists (EvLog (ErrRetryJob (message_of e)) ::
                new ++ [EvLog (LogRetrying (List.length (r0 :: rows)));
                        EvQuery QSelectRetry None])%list.
        split; [simpl; rewrite Ht, Hrows, <- app_assoc; reflexivity|].
        change (posted (EvLog (ErrRetryJob (message_of e)) :: ?l)) with (posted l).
        rewrite posted_app, app_nil_r. exact Hp'.
Qed.

Lemma read_pdf_readable (w : World) (inv : Row) (p c : string) (s : Sys) :
  p <> EmptyString ->
  file_at w (files_used s) (pop (split "/" p)) <> Missing ->
  file_at w (S (files_used s)) (pop (split "/" p)) = Readable c ->
  exists s1, read_pdf w (Some inv) (Some p) s = (Returned (Some c), s1).
Proof.
  intros Hp Hthere Hread. unfold read_pdf.
  assert (Ht : truthy (Some p) = true) by (destruct p; [congruence | reflexivity]).
  rewrite Ht.
  unfold try_catch, bind, existsSync, readFileSync, ret. simpl.
  destruct (file_at w (files_used s) (pop (split "/" p))); [congruence| |];
    simpl; rewrite Hread; eexists; reflexivity.
Qed.

(** X6. When the file named by [pdf_url] is on disk and can be read,
    [sendWebhook] posts its content, as read in base64, in [pdf_base64],
    together with the invoice's own fields and the time of sending. *)
Theorem readable_pdf_is_embedded (w : World) (url : option string) (inv : Row)
        (p c : string) (s : Sys) :
  truthy url = true ->
  pdf_url inv = Some p ->
  p <> EmptyString ->
  file_at w (files_used s) (pop (split "/" p)) <> Missing ->
  file_at w (S (files_used s)) (pop (split "/" p)) = Readable c ->
  exists u body,
    url = Some u /\
    In (EvPost u body (post_outcome w (posts s)))
       (trace (snd (sendWebhook w url (Some inv) s))) /\
    payload_of_row inv body /\
    pdf_base64 body = Some c /\
    timestamp body = iso_now w (posts s).
Proof.
  intros Hu Hurl Hp Hthere Hread. destruct (truthy_Some url Hu) as [u ->].
  destruct (sendWebhook_runs w u inv s Hu) as (content & s1 & Hpdf & Hrun).
  destruct (read_pdf_readable w inv p c s Hp Hthere Hread) as (s1' & Hpdf').
  rewrite Hurl, Hpdf' in Hpdf. inversion Hpdf; subst content s1'.
  apply sendWebhook_run_trace in Hrun. destruct Hrun as (pre & Ht & _ & Hin).
  exists u, (body_of w inv (Some c) s). split; [reflexivity|].
  split; [rewrite Ht; apply in_or_app; left; exact Hin|].
  split; [apply body_of_row|]. split; reflexivity.
Qed.

Lemma readable_pdf_is_embedded_witness :
  exists u body,
    hook = Some u /\
    In (EvPost u body Http2xx)
       (trace (snd (sendWebhook w_pdf_on_disk hook (Some invoice_A) (start [invoice_A])))) /\
    pdf_base64 body = Some "JVBERi0xLjMK".
Proof.
  destruct (readable_pdf_is_embedded w_pdf_on_disk hook invoice_A
              "http://localhost:5000/invoices/files/invoice_919900000001_inv-A_1.pdf"
              "JVBERi0xLjMK" (start [invoice_A])
              eq_refl eq_refl ltac:(discriminate) ltac:(discriminate) eq_refl)
    as (u & body & Hu & Hin & _ & Hb & _).
  exists u, body. auto.
Defined.

(** ** The approval route as a whole *)

Lemma triggerHook_returns (w : World) (url : option string)
      (row : option Row) (s : Sys) :
  fst (triggerHook w url row s) = Returned tt /\
  db (snd (triggerHook w url row s)) = db (snd (sendWebhook w url row s)) /\
  posts (snd (triggerHook w url row s)) = posts (snd (sendWebhook w url row s)).
Proof.
  unfold triggerHook. destruct (truthy url) eqn:Hu.
  - unfold try_catch, bind, ret, console, record.
    destruct (sendWebhook w url row s) as [[b|e] s']; simpl; auto.
  - rewrite (sendWebhook_unconfigured w url row s Hu). simpl. auto.
Qed.

(** The route once the body holds a PDF, by what the commit gives. *)
Lemma approve_unfold (w : World) (url vercel : option string)
      (req : ApproveRequest) (s : Sys) :
  truthy (body_pdfBase64 req) = true ->
  approve w url vercel req s =
  match approve_commit w vercel req s with
  | (Returned (Some r), s1) =>
      (Returned (Json 200 r), snd (triggerHook w url (Some r) s1))
  | (Returned None, s1) =>
      (Returned (JsonError 500 "Approval failed"),
       record (EvLog (ErrApproval "Cannot read properties of undefined"))
              (snd (triggerHook w url None s1)))
  | (Thrown e, s1) =>
      (Returned (JsonError 500 "Approval failed"),
       record (EvLog (ErrApproval (message_of e))) s1)
  end.
Proof.
  intros Hpdf. unfold approve. rewrite Hpdf.
  unfold try_catch, bind. cbn [negb]. cbv beta iota.
  destruct (approve_commit w vercel req s) as [[row|e] s1]; [|reflexivity].
  destruct row as [r|].
  - pose proof (proj1 (triggerHook_returns w url (Some r) s1)) as Hret.
    destruct (triggerHook w url (Some r) s1) as [[[]|e] s2]; simpl in Hret;
      [reflexivity | discriminate].
  - pose proof (proj1 (triggerHook_returns w url None s1)) as Hret.
    destruct (triggerHook w url None s1) as [[[]|e] s2]; simpl in Hret;
      [reflexivity | discriminate].
Qed.

Lemma approve_commit_ok (w : World) (vercel : option string)
      (req : ApproveRequest) (s : Sys) :
  (truthy vercel = false -> write_error w (files_used s) = None) ->
  query_error w (queries s) = None ->
  exists pdfUrl s1,
    approve_commit w vercel req s
    = (Returned (hd_error (map (set_approved (body_total req) pdfUrl)
                               (filter (has_id_phone (param_id req) (param_phone req))
                                       (db s)))), s1) /\
    db s1 = approve_update (body_total req) pdfUrl
                           (param_id req) (param_phone req) (db s) /\
    posts s1 = posts s /\ queries s1 = S (queries s) /\
    (truthy vercel = false ->
     exists filename, hd_error (tl (trace s1)) = Some (EvWrite filename)).
Proof.
  intros Hw Hq.
  unfold approve_commit, bind, Date_now, writeFileSync, pool_query, ret.
  destruct (truthy vercel); simpl.
  - rewrite Hq. simpl. eexists _, _. split; [reflexivity|]. simpl.
    repeat split. discriminate.
  - rewrite (Hw eq_refl). simpl. rewrite Hq. simpl.
    eexists _, _. split; [reflexivity|]. simpl.
    repeat split. intros _. eexists. reflexivity.
Qed.

Lemma update_where_none (cond : Row -> bool) (f : Row -> Row) (t : Table) :
  (forall r, In r t -> cond r = false) -> update_where cond f t = t.
Proof.
  intros H. unfold update_where. rewrite <- (map_id t) at 2.
  apply map_ext_in. intros r Hin. rewrite (H r Hin). reflexivity.
Qed.

Lemma filter_none {A : Type} (p : A -> bool) (l : list A) :
  (forall x, In x l -> p x = false) -> filter p l = [].
Proof.
  induction l as [|a l IH]; simpl; intros H; [reflexivity|].
  rewrite (H a) by (left; reflexivity). apply IH.
  intros x Hx. apply H. right; exact Hx.
Qed.

Lemma filter_head_unique {A : Type} (p : A -> bool) (l : list A) (a : A) :
  In a l -> p a = true -> (forall x, In x l -> p x = true -> x = a) ->
  hd_error (filter p l) = Some a.
Proof.
  intros Hin Hp Huniq.
  destruct (filter p l) as [|x l'] eqn:E.
  - assert (H : In a (filter p l)) by (apply filter_In; auto).
    rewrite E in H. contradiction.
  - assert (H : In x (filter p l)) by (rewrite E; left; reflexivity).
    apply filter_In in H. destruct H as [Hx Hpx].
    simpl. rewrite (Huniq x Hx Hpx). reflexivity.
Qed.

(** X7. The approval route always answers and never throws.  It answers
    400 exactly when the body holds no PDF, and then has done nothing: no
    file, no query, no post.  It answers 200 only with a row the update
    returned, which has the id and phone of the request and stands
    APPROVED, PENDING, with 0 attempts and the total of the body; every
    other outcome is a 500. *)
Theorem approve_always_responds (w : World) (url vercel : option string)
        (req : ApproveRequest) (s : Sys) :
  exists resp,
    fst (approve w url vercel req s) = Returned resp /\
    match resp with
    | Json code r =>
        code = 200%nat /\ truthy (body_pdfBase64 req) = true /\
        id r = param_id req /\ phonenumber r = param_phone req /\
        status r = Some "APPROVED" /\ webhook_status r = Some "PENDING" /\
        webhook_attempts r = Some 0%Z /\ total r = body_total req
    | JsonError code _ =>
        (code = 400%nat /\ truthy (body_pdfBase64 req) = false /\
         snd (approve w url vercel req s) = s) \/
        (code = 500%nat /\ truthy (body_pdfBase64 req) = true)
    end.
Proof.
  destruct (truthy (body_pdfBase64 req)) eqn:Hpdf.
  - rewrite (approve_unfold w url vercel req s Hpdf).
    pose proof (approve_commit_cases w vercel req s) as Hc. simpl in Hc.
    destruct (approve_commit w vercel req s) as [[[r|]|e] s1]; simpl in *.
    + exists (Json 200 r). split; [reflexivity|].
      destruct Hc as [[[e He] _] | (pdfUrl & Hr & _)]; [discriminate|].
      inversion Hr as [Hhd]. symmetry in Hhd.
      apply hd_error_map_filter in Hhd. destruct Hhd as (r1 & _ & Hp & ->).
      apply has_id_phone_true in Hp. destruct Hp as [Hid Hph].
      simpl. auto 10.
    + eexists. split; [reflexivity|]. right. auto.
    + eexists. split; [reflexivity|]. right. auto.
  - unfold approve. rewrite Hpdf. simpl.
    eexists. split; [reflexivity|]. left. auto.
Qed.

Lemma In_second {A : Type} (l : list A) (x : A) :
  hd_error (tl l) = Some x -> In x l.
Proof.
  destruct l as [|a [|b l]]; simpl; try discriminate.
  intros H; inversion H; auto.
Qed.

(** X8. Approving an invoice that does not exist (no row has the id and
    phone of the request) answers 500 and leaves the table as it was and
    the destination uncalled; yet, off Vercel, the PDF of the body has
    been written to disk before the update found no row. *)
Theorem approve_unknown_invoice (w : World) (url vercel : option string)
        (req : ApproveRequest) (s : Sys) :
  truthy (body_pdfBase64 req) = true ->
  (forall r, In r (db s) -> ~ (id r = param_id req /\ phonenumber r = param_phone req)) ->
  (truthy vercel = false -> write_error w (files_used s) = None) ->
  query_error w (queries s) = None ->
  let res := approve w url vercel req s in
  fst res = Returned (JsonError 500 "Approval failed") /\
  db (snd res) = db s /\
  posts (snd res) = posts s /\
  (truthy vercel = false -> exists filename, In (EvWrite filename) (trace (snd res))).
Proof.
  intros Hpdf Hnone Hw Hq.
  assert (Hno : forall r, In r (db s) ->
                          has_id_phone (param_id req) (param_phone req) r = false).
  { intros r Hin. destruct (has_id_phone _ _ r) eqn:E; [|reflexivity].
    apply has_id_phone_true in E. exfalso. exact (Hnone r Hin E). }
  destruct (approve_commit_ok w vercel req s Hw Hq)
    as (pdfUrl & s1 & Hc & Hdb & Hposts & _ & Hfile).
  simpl. rewrite (approve_unfold w url vercel req s Hpdf), Hc.
  rewrite (filter_none _ _ Hno). simpl.
  unfold approve_update in Hdb. rewrite (update_where_none _ _ _ Hno) in Hdb.
  destruct (triggerHook_returns w url None s1) as (_ & Hdb' & Hposts').
  rewrite sendWebhook_undefined in Hdb'.
  assert (Hp : posts (snd (sendWebhook w url None s1)) = posts s1).
  { destruct (truthy url) eqn:Hu.
    - rewrite (sendWebhook_undefined_throws w url s1 Hu). reflexivity.
    - rewrite (sendWebhook_unconfigured w url None s1 Hu). reflexivity. }
  split; [reflexivity|]. split; [congruence|]. split; [congruence|].
  intros Hv. destruct (Hfile Hv) as (filename & Hf). exists filename.
  right. apply In_second in Hf.
  unfold triggerHook. destruct (truthy url) eqn:Hu.
  - unfold try_catch, bind.
    rewrite (sendWebhook_undefined_throws w url s1 Hu). simpl. right; exact Hf.
  - simpl. right; exact Hf.
Qed.

Lemma approve_unknown_invoice_witness :
  let res := approve w_up hook None approve_unknown (start [invoice_A]) in
  fst res = Returned (JsonError 500 "Approval failed") /\
  db (snd res) = [invoice_A] /\
  exists filename, In (EvWrite filename) (trace (snd res)).
Proof.
  destruct (approve_unknown_invoice w_up hook None approve_unknown (start [invoice_A])
              eq_refl) as (Hr & Hdb & _ & Hfile).
  - intros r [<-|[]] [Hid _]. discriminate.
  - reflexivity.
  - reflexivity.
  - split; [exact Hr|]. split; [exact Hdb|]. exact (Hfile eq_refl).
Defined.

(** X9. The approval followed by its immediate delivery, run without
    interleaving over a table with unique ids, the PDF written and the
    database answering: the route answers 200 with the approved row, and
    the invoice ends SENT with 0 attempts when the destination answers,
    FAILED with 1 attempt when it does not; in the second case, and only
    then, the row is eligible for the retry job. *)
Theorem approve_then_delivery (w : World) (url vercel : option string)
        (req : ApproveRequest) (s : Sys) (r1 : Row) :
  truthy (body_pdfBase64 req) = true ->
  truthy url = true ->
  (truthy vercel = false -> write_error w (files_used s) = None) ->
  query_error w (queries s) = None ->
  query_error w (S (queries s)) = None ->
  NoDup (map id (db s)) ->
  In r1 (db s) -> id r1 = param_id req -> phonenumber r1 = param_phone req ->
  exists pdfUrl s',
    approve w url vercel req s
    = (Returned (Json 200 (set_approved (body_total req) pdfUrl r1)), s') /\
    let delivered := is_2xx (post_outcome w (posts s)) in
    let final := (if delivered then set_sent else set_failed)
                   (set_approved (body_total req) pdfUrl r1) in
    In final (db s') /\
    webhook_status final = Some (if delivered then "SENT" else "FAILED") /\
    webhook_attempts final = Some (if delivered then 0 else 1)%Z /\
    retry_eligible final = negb delivered.
Proof.
  intros Hpdf Hu Hw Hq Hq' Hnd Hin Hid Hph.
  destruct (truthy_Some url Hu) as [u ->].
  destruct (approve_commit_ok w vercel req s Hw Hq)
    as (pdfUrl & s1 & Hc & Hdb & Hposts & Hqs & _).
  assert (Hmatch : has_id_phone (param_id req) (param_phone req) r1 = true)
    by (apply has_id_phone_true; auto).
  assert (Hhd : hd_error (filter (has_id_phone (param_id req) (param_phone req)) (db s))
                = Some r1).
  { apply filter_head_unique; auto.
    intros x Hx Hpx. apply has_id_phone_true in Hpx.
    apply (NoDup_map_injective_on id (db s)); auto. destruct Hpx; congruence. }
  destruct (filter (has_id_phone (param_id req) (param_phone req)) (db s))
    as [|x matched]; [discriminate|].
  simpl in Hhd. inversion Hhd; subst x. simpl in Hc.
  set (r0 := set_approved (body_total req) pdfUrl r1) in *.
  exists pdfUrl, (snd (triggerHook w (Some u) (Some r0) s1)).
  split; [rewrite (approve_unfold w (Some u) vercel req s Hpdf), Hc; reflexivity|].
  destruct (triggerHook_returns w (Some u) (Some r0) s1) as (_ & -> & _).
  assert (Hin0 : In r0 (db s1)).
  { rewrite Hdb. apply update_where_hit; assumption. }
  destruct (sendWebhook_runs w u r0 s1 Hu) as (content & s2 & _ & Hrun).
  unfold sendWebhook_run in Hrun. destruct Hrun as [_ Hrun].
  rewrite Hposts, Hqs, Hq' in Hrun.
  destruct (post_outcome w (posts s)); simpl.
  - destruct Hrun as (_ & -> & _).
    split; [|repeat split].
    apply update_where_hit; [exact Hin0 | apply has_id_true; reflexivity].
  - destruct Hrun as (_ & _ & -> & _).
    split; [|repeat split].
    apply update_where_hit; [exact Hin0 | apply has_id_true; reflexivity].
Qed.

Lemma approve_then_delivery_witness :
  exists pdfUrl s',
    approve w_net_down hook None approve_A (start [invoice_B; invoice_A])
    = (Returned (Json 200 (set_approved (Some "1180.00") pdfUrl invoice_A)), s') /\
    In (set_failed (set_approved (Some "1180.00") pdfUrl invoice_A)) (db s').
Proof.
  destruct (approve_then_delivery w_net_down hook None approve_A
              (start [invoice_B; invoice_A]) invoice_A
              eq_refl eq_refl (fun _ => eq_refl) eq_refl eq_refl)
    as (pdfUrl & s' & Hrun & Hin & _).
  - simpl. repeat (constructor; [simpl; intuition discriminate|]). constructor.
  - simpl; auto.
  - reflexivity.
  - reflexivity.
  - exists pdfUrl, s'. split; [exact Hrun | exact Hin].
Defined.



